(** * RapidTrack: issue lifecycle and SLA engine

    A shallow embedding of the server side of the issue tracker:
    [shared/schema.ts] (enumerations and record shapes), the in-memory
    store [MemStorage] of [server/storage.ts] and the request handlers of
    [server/routes.ts] that change an issue.

    Conventions.
    - A [Date] is its time value: milliseconds since the epoch, in [Z],
      without the bound that [TimeClip] puts on it.  Every [new Date()]
      of one call reads the clock argument [now].
    - A JavaScript [number] that is not known to be an integer is a
      [Number.t]: an exact rational, an infinity or NaN.  Rounding to
      binary64 is not modelled.
    - A JavaScript [Map<number, V>] is a [gmap Z V]; the order in which a
      [Map] is traversed is not modelled. *)

From Stdlib Require Import ZArith QArith Qround Lia.
From stdpp Require Import gmap strings list.

Open Scope Z_scope.
Open Scope string_scope.

(** ** shared/schema.ts: enumerations *)

Module UserRole.
Inductive t := EMPLOYEE | DEPARTMENT | ADMIN.
#[global] Instance eq_dec : EqDecision t.
Proof. solve_decision. Defined.
End UserRole.

Module IssueStatus.
Inductive t :=
  OPEN | IN_PROGRESS | PENDING | COMPLETED | VERIFIED | REJECTED | CLOSED
| ESCALATED.
#[global] Instance eq_dec : EqDecision t.
Proof. solve_decision. Defined.

(** The string value of each member: the key under which a
    [Record<IssueStatus, number>] object stores it. *)
Definition value (s : t) : string :=
  match s with
  | OPEN => "open"
  | IN_PROGRESS => "in_progress"
  | PENDING => "pending"
  | COMPLETED => "completed"
  | VERIFIED => "verified"
  | REJECTED => "rejected"
  | CLOSED => "closed"
  | ESCALATED => "escalated"
  end.

Definition all : list t :=
  [OPEN; IN_PROGRESS; PENDING; COMPLETED; VERIFIED; REJECTED; CLOSED;
   ESCALATED].
End IssueStatus.

Module Department.
Inductive t := IT | HR | ADMIN | FINANCE | LEGAL.
#[global] Instance eq_dec : EqDecision t.
Proof. solve_decision. Defined.

Definition value (d : t) : string :=
  match d with
  | IT => "IT"
  | HR => "HR"
  | ADMIN => "Admin"
  | FINANCE => "Finance"
  | LEGAL => "Legal"
  end.

(** [Object.values(Department)] *)
Definition values : list t := [IT; HR; ADMIN; FINANCE; LEGAL].
End Department.

Module SLAPriority.
Inductive t := LOW | MEDIUM | HIGH | CRITICAL.
#[global] Instance eq_dec : EqDecision t.
Proof. solve_decision. Defined.

Definition value (p : t) : string :=
  match p with
  | LOW => "low"
  | MEDIUM => "medium"
  | HIGH => "high"
  | CRITICAL => "critical"
  end.
End SLAPriority.

Module SLAStatus.
Inductive t := ON_TRACK | AT_RISK | BREACHED | COMPLETED.
#[global] Instance eq_dec : EqDecision t.
Proof. solve_decision. Defined.
End SLAStatus.

(** [SLATimes]: hours allowed per priority. *)
Definition SLATimes (p : SLAPriority.t) : Z :=
  match p with
  | SLAPriority.LOW => 48
  | SLAPriority.MEDIUM => 24
  | SLAPriority.HIGH => 8
  | SLAPriority.CRITICAL => 4
  end.

(** ** Dates

    The part of ECMAScript's [Date] the store uses.  [getHours] and
    [setHours] work on local time; the local zone is a fixed offset
    [LocalTZA] from UTC, in milliseconds. *)

Module Date.
Definition HoursPerDay : Z := 24.
Definition MinutesPerHour : Z := 60.
Definition SecondsPerMinute : Z := 60.
Definition msPerSecond : Z := 1000.
Definition msPerMinute : Z := 60000.
Definition msPerHour : Z := 3600000.
Definition msPerDay : Z := 86400000.

Definition Day (t : Z) : Z := t `div` msPerDay.
Definition HourFromTime (t : Z) : Z := (t `div` msPerHour) `mod` HoursPerDay.
Definition MinFromTime (t : Z) : Z :=
  (t `div` msPerMinute) `mod` MinutesPerHour.
Definition SecFromTime (t : Z) : Z :=
  (t `div` msPerSecond) `mod` SecondsPerMinute.
Definition msFromTime (t : Z) : Z := t `mod` msPerSecond.

Definition MakeTime (hour min sec ms : Z) : Z :=
  hour * msPerHour + min * msPerMinute + sec * msPerSecond + ms.
Definition MakeDate (day time : Z) : Z := day * msPerDay + time.

Section LocalZone.
Variable LocalTZA : Z.

Definition LocalTime (t : Z) : Z := t + LocalTZA.
Definition UTC (t : Z) : Z := t - LocalTZA.

Definition getHours (t : Z) : Z := HourFromTime (LocalTime t).

(** [d.setHours(hour)]: the new time value of [d]. *)
Definition setHours (t hour : Z) : Z :=
  let lt := LocalTime t in
  UTC (MakeDate (Day lt)
         (MakeTime hour (MinFromTime lt) (SecFromTime lt) (msFromTime lt))).
End LocalZone.
End Date.

(** ** Numbers *)

Module Number.
Inductive t := Fin (q : Q) | PosInf | NegInf | NaN.

Definition ofZ (z : Z) : t := Fin (inject_Z z).

Definition sign (q : Q) : Z := Z.sgn (Qnum q).

(** [a + b] *)
Definition add (a b : t) : t :=
  match a, b with
  | NaN, _ | _, NaN => NaN
  | Fin x, Fin y => Fin (x + y)
  | PosInf, NegInf | NegInf, PosInf => NaN
  | PosInf, _ | _, PosInf => PosInf
  | NegInf, _ | _, NegInf => NegInf
  end.

(** [a + b] where [a] was read from an object: a missing property is
    [undefined], and [undefined + b] is NaN. *)
Definition addU (a : option t) (b : t) : t :=
  match a with
  | Some x => add x b
  | None => NaN
  end.

Definition signed_inf (s : Z) : t :=
  if decide (s = 0) then NaN else if decide (0 < s) then PosInf else NegInf.

(** [a * b] *)
Definition mul (a b : t) : t :=
  match a, b with
  | NaN, _ | _, NaN => NaN
  | Fin x, Fin y => Fin (x * y)
  | Fin x, PosInf | PosInf, Fin x => signed_inf (sign x)
  | Fin x, NegInf | NegInf, Fin x => signed_inf (- sign x)
  | PosInf, PosInf | NegInf, NegInf => PosInf
  | PosInf, NegInf | NegInf, PosInf => NegInf
  end.

(** [a / b]; a zero divisor is the positive zero that a difference of
    two equal time values gives. *)
Definition div (a b : t) : t :=
  match a, b with
  | NaN, _ | _, NaN => NaN
  | Fin x, Fin y =>
      if decide (sign y = 0) then signed_inf (sign x) else Fin (x / y)
  | Fin _, (PosInf | NegInf) => Fin 0
  | (PosInf | NegInf), (PosInf | NegInf) => NaN
  | PosInf, Fin y => if decide (sign y < 0) then NegInf else PosInf
  | NegInf, Fin y => if decide (sign y < 0) then PosInf else NegInf
  end.

(** [a <= b] *)
Definition leb (a b : t) : bool :=
  match a, b with
  | NaN, _ | _, NaN => false
  | Fin x, Fin y => Qle_bool x y
  | NegInf, _ | _, PosInf => true
  | PosInf, _ | _, NegInf => false
  end.

(** [Math.round(a)]: the nearest integer, a half going up. *)
Definition round (a : t) : t :=
  match a with
  | Fin x => Fin (inject_Z (Qfloor (x + (1 # 2))))
  | _ => a
  end.

(** The value of a property as an operand of arithmetic: a missing
    property is [undefined], which converts to NaN. *)
Definition ofProperty (a : option t) : t :=
  match a with
  | Some x => x
  | None => NaN
  end.
End Number.

(** ** shared/schema.ts: records *)

Module User.
Record t := mk {
  id : Z;
  username : string;
  password : string;
  fullName : string;
  email : string;
  role : UserRole.t;
  department : Department.t;
  createdAt : Z
}.
End User.

Module InsertUser.
Record t := mk {
  username : string;
  password : string;
  fullName : string;
  email : string;
  role : UserRole.t;
  department : Department.t
}.
End InsertUser.

Module Comment.
Record t := mk {
  id : string;
  userId : Z;
  userName : string;
  text : string;
  timestamp : Z
}.
End Comment.

(** [priority] stays a string: [createIssue] itself provides for a value
    that is empty or outside [SLAPriority]. *)
Module Issue.
Record t := mk {
  id : Z;
  title : string;
  description : string;
  department : Department.t;
  status : IssueStatus.t;
  priority : string;
  reporterId : Z;
  assigneeId : option Z;
  createdAt : Z;
  updatedAt : Z;
  dueBy : option Z;
  slaStatus : SLAStatus.t;
  isEscalated : bool;
  comments : list Comment.t
}.

(** Object spread with one overriding property: [{...issue, f: v}]. *)
Definition with_department (v : Department.t) (i : t) : t :=
  mk (id i) (title i) (description i) v (status i) (priority i)
     (reporterId i) (assigneeId i) (createdAt i) (updatedAt i) (dueBy i)
     (slaStatus i) (isEscalated i) (comments i).
Definition with_status (v : IssueStatus.t) (i : t) : t :=
  mk (id i) (title i) (description i) (department i) v (priority i)
     (reporterId i) (assigneeId i) (createdAt i) (updatedAt i) (dueBy i)
     (slaStatus i) (isEscalated i) (comments i).
Definition with_assigneeId (v : option Z) (i : t) : t :=
  mk (id i) (title i) (description i) (department i) (status i) (priority i)
     (reporterId i) v (createdAt i) (updatedAt i) (dueBy i)
     (slaStatus i) (isEscalated i) (comments i).
Definition with_updatedAt (v : Z) (i : t) : t :=
  mk (id i) (title i) (description i) (department i) (status i) (priority i)
     (reporterId i) (assigneeId i) (createdAt i) v (dueBy i)
     (slaStatus i) (isEscalated i) (comments i).
Definition with_slaStatus (v : SLAStatus.t) (i : t) : t :=
  mk (id i) (title i) (description i) (department i) (status i) (priority i)
     (reporterId i) (assigneeId i) (createdAt i) (updatedAt i) (dueBy i)
     v (isEscalated i) (comments i).
Definition with_isEscalated (v : bool) (i : t) : t :=
  mk (id i) (title i) (description i) (department i) (status i) (priority i)
     (reporterId i) (assigneeId i) (createdAt i) (updatedAt i) (dueBy i)
     (slaStatus i) v (comments i).
Definition with_comments (v : list Comment.t) (i : t) : t :=
  mk (id i) (title i) (description i) (department i) (status i) (priority i)
     (reporterId i) (assigneeId i) (createdAt i) (updatedAt i) (dueBy i)
     (slaStatus i) (isEscalated i) v.
End Issue.

Module InsertIssue.
Record t := mk {
  title : string;
  description : string;
  department : Department.t;
  status : IssueStatus.t;
  priority : string;
  reporterId : Z
}.
End InsertIssue.

(** The [details] payload of an activity, one shape per action. *)
Inductive Details :=
| DetailsTitle (title : string)
| DetailsStatus (fromStatus toStatus : IssueStatus.t)
| DetailsAssignee (assigneeId : Z)
| DetailsReason (reason : string)
| DetailsComment (commentId : string)
| DetailsDepartment (fromDepartment toDepartment : Department.t).

Module Activity.
Record t := mk {
  id : Z;
  issueId : Z;
  userId : Z;
  action : string;
  details : Details;
  createdAt : Z
}.
End Activity.

Module InsertActivity.
Record t := mk {
  issueId : Z;
  userId : Z;
  action : string;
  details : Details
}.
End InsertActivity.

(** ** server/storage.ts *)

(** Calculate if SLA is breached or at risk. *)
Definition calculateSlaStatus (now : Z) (issue : Issue.t) : SLAStatus.t :=
  match Issue.dueBy issue with
  | None => SLAStatus.ON_TRACK
  | Some dueDate =>
      if decide (Issue.status issue = IssueStatus.VERIFIED
                 ∨ Issue.status issue = IssueStatus.CLOSED)
      then SLAStatus.COMPLETED
      else if decide (now > dueDate) then SLAStatus.BREACHED
      else
        let timeLeft := Number.ofZ (dueDate - now) in
        let totalTime := Number.ofZ (dueDate - Issue.createdAt issue) in
        let percentTimeLeft :=
          Number.mul (Number.div timeLeft totalTime) (Number.ofZ 100) in
        if Number.leb percentTimeLeft (Number.ofZ 25) then SLAStatus.AT_RISK
        else SLAStatus.ON_TRACK
  end.

Module MemStorage.
Record t := mk {
  usersMap : gmap Z User.t;
  issuesMap : gmap Z Issue.t;
  activitiesMap : gmap Z Activity.t;
  userIdCounter : Z;
  issueIdCounter : Z;
  activityIdCounter : Z
}.

(** A method of the store: it returns a value and leaves a store. *)
Definition M (A : Type) : Type := t → A * t.

Definition ret {A : Type} (a : A) : M A := λ s, (a, s).
Definition bind {A B : Type} (m : M A) (f : A → M B) : M B :=
  λ s, let '(a, s') := m s in f a s'.

(** [const x = await m; k] *)
Notation "'let!' x ':=' m 'in' k" := (bind m (λ x, k))
  (at level 10, x name, m at level 100, k at level 200,
   format "'[v' 'let!'  x  ':='  m  'in' '/' k ']'").

Definition empty : t := mk ∅ ∅ ∅ 1 1 1.

(** *** User methods *)

Definition getUser (id : Z) : M (option User.t) :=
  λ s, (usersMap s !! id, s).

Definition createUser (now : Z) (insertUser : InsertUser.t) : M User.t :=
  λ s,
    let id := userIdCounter s in
    let user :=
      User.mk id (InsertUser.username insertUser)
        (InsertUser.password insertUser) (InsertUser.fullName insertUser)
        (InsertUser.email insertUser) (InsertUser.role insertUser)
        (InsertUser.department insertUser) now in
    (user,
     mk (<[id := user]> (usersMap s)) (issuesMap s) (activitiesMap s)
        (id + 1) (issueIdCounter s) (activityIdCounter s)).

(** *** Activity methods *)

Definition createActivity (now : Z) (insertActivity : InsertActivity.t)
  : M Activity.t :=
  λ s,
    let id := activityIdCounter s in
    let activity :=
      Activity.mk id (InsertActivity.issueId insertActivity)
        (InsertActivity.userId insertActivity)
        (InsertActivity.action insertActivity)
        (InsertActivity.details insertActivity) now in
    (activity,
     mk (usersMap s) (issuesMap s) (<[id := activity]> (activitiesMap s))
        (userIdCounter s) (issueIdCounter s) (id + 1)).

(** *** Issue methods *)

(** [this.issuesMap.set(id, issue)] *)
Definition setIssue (id : Z) (issue : Issue.t) (s : t) : t :=
  mk (usersMap s) (<[id := issue]> (issuesMap s)) (activitiesMap s)
     (userIdCounter s) (issueIdCounter s) (activityIdCounter s).

(** The [switch] of [createIssue]: hours to add, 24 by default. *)
Definition hoursToAdd (priority : string) : Z :=
  if decide (priority = SLAPriority.value SLAPriority.CRITICAL) then 4
  else if decide (priority = SLAPriority.value SLAPriority.HIGH) then 8
  else if decide (priority = SLAPriority.value SLAPriority.MEDIUM) then 24
  else if decide (priority = SLAPriority.value SLAPriority.LOW) then 48
  else 24.

Section LocalZone.
Variable LocalTZA : Z.

Definition createIssue (now : Z) (insertIssue : InsertIssue.t)
  : M Issue.t :=
  λ s,
    let id := issueIdCounter s in
    let dueBy :=
      if decide (InsertIssue.priority insertIssue ≠ "") then
        Some (Date.setHours LocalTZA now
                (Date.getHours LocalTZA now
                 + hoursToAdd (InsertIssue.priority insertIssue)))
      else None in
    let issue :=
      Issue.mk id (InsertIssue.title insertIssue)
        (InsertIssue.description insertIssue)
        (InsertIssue.department insertIssue)
        (InsertIssue.status insertIssue)
        (InsertIssue.priority insertIssue)
        (InsertIssue.reporterId insertIssue)
        None now now dueBy SLAStatus.ON_TRACK false [] in
    let s1 :=
      mk (usersMap s) (<[id := issue]> (issuesMap s)) (activitiesMap s)
         (userIdCounter s) (id + 1) (activityIdCounter s) in
    let '(_, s2) :=
      createActivity now
        (InsertActivity.mk id (InsertIssue.reporterId insertIssue)
           "created" (DetailsTitle (InsertIssue.title insertIssue))) s1 in
    (issue, s2).
End LocalZone.

Definition getIssue (now : Z) (id : Z) : M (option Issue.t) :=
  λ s,
    match issuesMap s !! id with
    | Some issue =>
        (* Update SLA status before returning *)
        let updatedIssue :=
          Issue.with_slaStatus (calculateSlaStatus now issue) issue in
        (Some updatedIssue, setIssue id updatedIssue s)
    | None => (None, s)
    end.

(** [Array.from(this.issuesMap.values())] *)
Definition issueValues (s : t) : list Issue.t :=
  (map_to_list (issuesMap s)).*2.

(** The callback of the [forEach] in [getAllIssues]. *)
Definition refreshIssue (now : Z) (s : t) (issue : Issue.t) : t :=
  let updatedSlaStatus := calculateSlaStatus now issue in
  if decide (Issue.slaStatus issue ≠ updatedSlaStatus) then
    setIssue (Issue.id issue) (Issue.with_slaStatus updatedSlaStatus issue) s
  else s.

Definition getAllIssues (now : Z) : M (list Issue.t) :=
  λ s,
    (* Update SLA statuses before returning *)
    let s' := foldl (refreshIssue now) s (issueValues s) in
    (issueValues s', s').

Definition updateIssueStatus (now : Z) (id : Z) (status : IssueStatus.t)
  : M (option Issue.t) :=
  let! issue := getIssue now id in
  match issue with
  | None => ret None
  | Some issue =>
      let updatedIssue :=
        Issue.with_slaStatus
          (if decide (status = IssueStatus.VERIFIED
                      ∨ status = IssueStatus.CLOSED)
           then SLAStatus.COMPLETED
           else calculateSlaStatus now (Issue.with_status status issue))
          (Issue.with_updatedAt now (Issue.with_status status issue)) in
      λ s, (Some updatedIssue, setIssue id updatedIssue s)
  end.

Definition assignIssue (now : Z) (id : Z) (assigneeId : Z)
  : M (option Issue.t) :=
  let! issue := getIssue now id in
  match issue with
  | None => ret None
  | Some issue =>
      let updatedIssue :=
        Issue.with_status
          (if decide (Issue.status issue = IssueStatus.OPEN)
           then IssueStatus.IN_PROGRESS else Issue.status issue)
          (Issue.with_updatedAt now
             (Issue.with_assigneeId (Some assigneeId) issue)) in
      λ s, (Some updatedIssue, setIssue id updatedIssue s)
  end.

Definition escalateIssue (now : Z) (id : Z) : M (option Issue.t) :=
  let! issue := getIssue now id in
  match issue with
  | None => ret None
  | Some issue =>
      let updatedIssue :=
        Issue.with_updatedAt now
          (Issue.with_status IssueStatus.ESCALATED
             (Issue.with_isEscalated true issue)) in
      λ s, (Some updatedIssue, setIssue id updatedIssue s)
  end.

(** Modelled from the spec: [updateIssueDepartment], which
    [routes.ts] calls and the store under [src/] does not define.  The
    spec's contract for reassignment: it "mutates [department]; does not
    change status", and [updatedAt] is "bumped on every mutation".  The
    issue is loaded through [getIssue] as in every other update method. *)
Definition updateIssueDepartment (now : Z) (id : Z)
  (department : Department.t) : M (option Issue.t) :=
  let! issue := getIssue now id in
  match issue with
  | None => ret None
  | Some issue =>
      let updatedIssue :=
        Issue.with_updatedAt now (Issue.with_department department issue) in
      λ s, (Some updatedIssue, setIssue id updatedIssue s)
  end.

(** *** Analytics methods *)

(** The object that [getIssueCountsByStatus] starts from. *)
Definition zeroCounts : gmap string Number.t :=
  <[IssueStatus.value IssueStatus.OPEN := Number.ofZ 0]>
  (<[IssueStatus.value IssueStatus.IN_PROGRESS := Number.ofZ 0]>
  (<[IssueStatus.value IssueStatus.COMPLETED := Number.ofZ 0]>
  (<[IssueStatus.value IssueStatus.VERIFIED := Number.ofZ 0]>
  (<[IssueStatus.value IssueStatus.REJECTED := Number.ofZ 0]>
  (<[IssueStatus.value IssueStatus.CLOSED := Number.ofZ 0]>
  (<[IssueStatus.value IssueStatus.ESCALATED := Number.ofZ 0]> ∅)))))).

(** [result[issue.status] += 1] *)
Definition countIssue (result : gmap string Number.t) (issue : Issue.t)
  : gmap string Number.t :=
  let key := IssueStatus.value (Issue.status issue) in
  <[key := Number.addU (result !! key) (Number.ofZ 1)]> result.

Definition getIssueCountsByStatus (now : Z) : M (gmap string Number.t) :=
  let! issues := getAllIssues now in
  ret (foldl countIssue zeroCounts issues).

Definition getEscalatedIssuesCount (now : Z) : M Z :=
  let! issues := getAllIssues now in
  ret (Z.of_nat
         (length (filter (λ issue, Issue.isEscalated issue = true) issues))).

(** *** Issue queries *)

Definition getIssuesByReporter (now : Z) (userId : Z) : M (list Issue.t) :=
  let! issues := getAllIssues now in
  ret (filter (λ issue, Issue.reporterId issue = userId) issues).

(** [department] is the string that the caller passes. *)
Definition getIssuesByDepartment (now : Z) (department : string)
  : M (list Issue.t) :=
  let! issues := getAllIssues now in
  ret (filter
         (λ issue, Department.value (Issue.department issue) = department)
         issues).

Definition getIssuesByStatus (now : Z) (status : IssueStatus.t)
  : M (list Issue.t) :=
  let! issues := getAllIssues now in
  ret (filter (λ issue, Issue.status issue = status) issues).

Definition getIssuesByAssignee (now : Z) (assigneeId : Z)
  : M (list Issue.t) :=
  let! issues := getAllIssues now in
  ret (filter (λ issue, Issue.assigneeId issue = Some assigneeId) issues).

(** [addComment]; [commentId] is what [nanoid()] returns. *)
Definition addComment (now : Z) (commentId : string) (issueId userId : Z)
  (text : string) : M (option Issue.t) :=
  let! issue := getIssue now issueId in
  let! user := getUser userId in
  match issue, user with
  | Some issue, Some user =>
      let comment :=
        Comment.mk commentId userId (User.fullName user) text now in
      let comments := Issue.comments issue in
      let updatedIssue :=
        Issue.with_updatedAt now
          (Issue.with_comments (comments ++ [comment]) issue) in
      λ s,
        let s1 := setIssue issueId updatedIssue s in
        (* Create activity for comment *)
        let '(_, s2) :=
          createActivity now
            (InsertActivity.mk issueId userId "commented"
               (DetailsComment commentId)) s1 in
        (Some updatedIssue, s2)
  | _, _ => ret None
  end.

(** *** SLA performance *)

(** The object [departmentIssues]: for each department the pair
    [(total, completed)]. *)
Definition departmentZero : gmap string (Z * Z) :=
  <[Department.value Department.IT := (0, 0)]>
  (<[Department.value Department.HR := (0, 0)]>
  (<[Department.value Department.ADMIN := (0, 0)]>
  (<[Department.value Department.FINANCE := (0, 0)]>
  (<[Department.value Department.LEGAL := (0, 0)]> ∅)))).

(** The callback of the [forEach] over the resolved issues.  Reading a
    property of [departmentIssues[issue.department]] throws when the
    object has no such key: [None]. *)
Definition countResolved (departmentIssues : option (gmap string (Z * Z)))
  (issue : Issue.t) : option (gmap string (Z * Z)) :=
  match departmentIssues with
  | None => None
  | Some departmentIssues =>
      let key := Department.value (Issue.department issue) in
      match departmentIssues !! key with
      | None => None
      | Some (total, completed) =>
          Some (<[key :=
                    (total + 1,
                     if decide (Issue.slaStatus issue ≠ SLAStatus.BREACHED)
                     then completed + 1 else completed)]> departmentIssues)
      end
  end.

(** [data.total > 0 ? Math.round((data.completed / data.total) * 100)
    : 100] *)
Definition percentCompleted (data : Z * Z) : Number.t :=
  let '(total, completed) := data in
  if decide (total > 0) then
    Number.round
      (Number.mul (Number.div (Number.ofZ completed) (Number.ofZ total))
         (Number.ofZ 100))
  else Number.ofZ 100. (* Default to 100% if no issues *)

(** [getSLAPerformanceByDepartment]; [None] when the method throws. *)
Definition getSLAPerformanceByDepartment (now : Z)
  : M (option (gmap string Number.t)) :=
  let! issues := getAllIssues now in
  (* Only consider resolved issues (verified or closed) *)
  let completedIssues :=
    filter
      (λ issue, Issue.status issue = IssueStatus.VERIFIED
                ∨ Issue.status issue = IssueStatus.CLOSED) issues in
  let departmentIssues :=
    foldl countResolved (Some departmentZero) completedIssues in
  ret (fmap (M := option) (fmap percentCompleted) departmentIssues).

(** The hash of "password" that the demo users share. *)
Definition demoPassword : string :=
  "$2b$10$ZI0mZ4LdR5vnHvuKKvO9neVxGp.cLQb4.V4bM6taJZYyJ1SuSCBDm".

(** The constructor: an empty store seeded with the three demo users. *)
Definition seedInitialData (now : Z) : M unit :=
  let! admin :=
    createUser now
      (InsertUser.mk "admin" demoPassword "Admin User" "admin@example.com"
         UserRole.ADMIN Department.IT) in
  let! itstaff :=
    createUser now
      (InsertUser.mk "itstaff" demoPassword "IT Staff" "it@example.com"
         UserRole.DEPARTMENT Department.IT) in
  let! employee :=
    createUser now
      (InsertUser.mk "employee" demoPassword "Regular Employee"
         "employee@example.com" UserRole.EMPLOYEE Department.FINANCE) in
  ret ().

Definition new (now : Z) : t := (seedInitialData now empty).2.
End MemStorage.

Notation "'let!' x ':=' m 'in' k" := (MemStorage.bind m (λ x, k))
  (at level 10, x name, m at level 100, k at level 200,
   format "'[v' 'let!'  x  ':='  m  'in' '/' k ']'").

(** ** server/routes.ts

    A handler takes what it reads from the request (the authenticated
    user, if any, the [:id] parameter and the body's properties) and
    returns the reply it sends.  A well-typed body is assumed: [status]
    is a member of [IssueStatus]. *)

Module Routes.
Import MemStorage.

Inductive Body :=
| JsonIssue (issue : option Issue.t)
| JsonMessage (message : string).

Record Response := mkResponse { statusCode : Z; body : Body }.

(** [res.json(issue)] and [res.status(code).json({ message })] *)
Definition json (issue : option Issue.t) : Response :=
  mkResponse 200 (JsonIssue issue).
Definition fail (code : Z) (message : string) : Response :=
  mkResponse code (JsonMessage message).

(** The middleware [requireRole(roles)] of [auth.ts]. *)
Definition requireRole (roles : list UserRole.t) (user : option User.t)
  (next : User.t → M Response) : M Response :=
  match user with
  | None => ret (fail 401 "Authentication required")
  | Some user =>
      if decide (User.role user ∈ roles) then next user
      else ret (fail 403 "Insufficient permissions")
  end.

(** [POST /api/issues]; [issueData] is the parsed body. *)
Definition post_issues (LocalTZA now : Z) (user : option User.t)
  (body : InsertIssue.t) : M Response :=
  match user with
  | None => ret (fail 401 "Authentication required")
  | Some user =>
      let issueData :=
        InsertIssue.mk (InsertIssue.title body) (InsertIssue.description body)
          (InsertIssue.department body) (InsertIssue.status body)
          (InsertIssue.priority body) (User.id user) in
      let! issue := createIssue LocalTZA now issueData in
      ret (mkResponse 201 (JsonIssue (Some issue)))
  end.

(** Validate status transitions based on role: the reply that refuses
    the request, if it is refused. *)
Definition status_refusal (user : User.t) (issue : Issue.t)
  (status : IssueStatus.t) : option Response :=
  if decide (User.role user = UserRole.EMPLOYEE) then
    (* Employees can only verify or reject completed issues they reported *)
    if decide (Issue.reporterId issue ≠ User.id user) then
      Some (fail 403 "Access forbidden")
    else if decide (Issue.status issue ≠ IssueStatus.COMPLETED
                    ∨ (status ≠ IssueStatus.VERIFIED
                       ∧ status ≠ IssueStatus.REJECTED)) then
      Some (fail 400 "Invalid status transition")
    else None
  else if decide (User.role user = UserRole.DEPARTMENT) then
    if decide (Issue.department issue ≠ User.department user) then
      Some (fail 403 "Access forbidden")
    else if decide (status = IssueStatus.IN_PROGRESS
                    ∧ Issue.status issue = IssueStatus.OPEN) then
      None (* Open -> In Progress (valid) *)
    else if decide (status = IssueStatus.PENDING
                    ∧ Issue.status issue = IssueStatus.IN_PROGRESS) then
      None (* In Progress -> Pending (valid) *)
    else if decide (status = IssueStatus.COMPLETED
                    ∧ (Issue.status issue = IssueStatus.IN_PROGRESS
                       ∨ Issue.status issue = IssueStatus.PENDING)) then
      None (* In Progress/Pending -> Completed (valid) *)
    else Some (fail 400 "Invalid status transition")
  else None.

(** [PATCH /api/issues/:id/status] *)
Definition patch_issues_status (now : Z) (user : option User.t) (id : Z)
  (status : IssueStatus.t) : M Response :=
  match user with
  | None => ret (fail 401 "Authentication required")
  | Some user =>
      let! issue := getIssue now id in
      match issue with
      | None => ret (fail 404 "Issue not found")
      | Some issue =>
          match status_refusal user issue status with
          | Some response => ret response
          | None =>
              let! updatedIssue := updateIssueStatus now id status in
              (* Create activity record *)
              let! activity :=
                createActivity now
                  (InsertActivity.mk id (User.id user) "updated_status"
                     (DetailsStatus (Issue.status issue) status)) in
              ret (json updatedIssue)
          end
      end
  end.

(** Check permissions based on role: the reply that refuses an
    escalation, if it is refused. *)
Definition escalate_refusal (user : User.t) (issue : Issue.t)
  : option Response :=
  if decide (User.role user = UserRole.EMPLOYEE) then
    (* Employees can only escalate issues they reported *)
    if decide (Issue.reporterId issue ≠ User.id user) then
      Some (fail 403 "Access forbidden")
    (* Only allow escalation if not already escalated *)
    else if Issue.isEscalated issue then
      Some (fail 400 "Issue is already escalated")
    (* Only allow escalation if issue is not verified or closed *)
    else if decide (Issue.status issue = IssueStatus.VERIFIED
                    ∨ Issue.status issue = IssueStatus.CLOSED) then
      Some (fail 400 "Cannot escalate verified or closed issues")
    (* For testing purposes, allow escalation without time restrictions *)
    else None
  else if decide (User.role user = UserRole.DEPARTMENT) then
    (* Department staff can only escalate issues in their department *)
    if decide (Issue.department issue ≠ User.department user) then
      Some (fail 403 "Access forbidden")
    else None
  else None (* Admins can escalate any issue *).

(** [req.body.reason || "Manual escalation"] *)
Definition reason_or_default (reason : option string) : string :=
  match reason with
  | Some r => if decide (r = "") then "Manual escalation" else r
  | None => "Manual escalation"
  end.

(** [PATCH /api/issues/:id/escalate] *)
Definition patch_issues_escalate (now : Z) (user : option User.t) (id : Z)
  (reason : option string) : M Response :=
  match user with
  | None => ret (fail 401 "Authentication required")
  | Some user =>
      let! issue := getIssue now id in
      match issue with
      | None => ret (fail 404 "Issue not found")
      | Some issue =>
          match escalate_refusal user issue with
          | Some response => ret response
          | None =>
              let! updatedIssue := escalateIssue now id in
              (* Create activity record *)
              let! activity :=
                createActivity now
                  (InsertActivity.mk id (User.id user) "escalated"
                     (DetailsReason (reason_or_default reason))) in
              ret (json updatedIssue)
          end
      end
  end.

(** The member of [Department] with the given string value, if any:
    [!department || !Object.values(Department).includes(department)]
    holds exactly when there is none. *)
Definition department_of (department : string) : option Department.t :=
  if decide (department = "") then None
  else
    head (filter (λ d, Department.value d = department) Department.values).

(** [PATCH /api/issues/:id/reassign-department] (admin only) *)
Definition patch_issues_reassign_department (now : Z) (user : option User.t)
  (id : Z) (department : string) : M Response :=
  requireRole [UserRole.ADMIN] user (λ user,
    match department_of department with
    | None => ret (fail 400 "Valid department is required")
    | Some department =>
        let! issue := getIssue now id in
        match issue with
        | None => ret (fail 404 "Issue not found")
        | Some issue =>
            if decide (Issue.department issue = department) then
              ret (fail 400 "Issue is already assigned to this department")
            else
              (* Update the issue's department *)
              let! updatedIssue := updateIssueDepartment now id department in
              (* Create activity record *)
              let! activity :=
                createActivity now
                  (InsertActivity.mk id (User.id user) "department_changed"
                     (DetailsDepartment (Issue.department issue) department))
              in
              ret (json updatedIssue)
        end
    end).
(** A reply whose body is not an issue: a payload, or a status code with
    a message. *)
Inductive Reply (A : Type) :=
| Sent (payload : A)
| Refused (code : Z) (message : string).
Arguments Sent {A} payload.
Arguments Refused {A} code message.

(** [requireRole(roles)] in front of a handler that sends a payload. *)
Definition requireRoleFor {A : Type} (roles : list UserRole.t)
  (user : option User.t) (next : User.t → M (Reply A)) : M (Reply A) :=
  match user with
  | None => ret (Refused 401 "Authentication required")
  | Some user =>
      if decide (User.role user ∈ roles) then next user
      else ret (Refused 403 "Insufficient permissions")
  end.

(** [GET /api/issues] (admin only) *)
Definition get_issues (now : Z) (user : option User.t)
  : M (Reply (list Issue.t)) :=
  requireRoleFor [UserRole.ADMIN] user (λ user,
    let! issues := getAllIssues now in
    ret (Sent issues)).

(** [GET /api/issues/me] *)
Definition get_issues_me (now : Z) (user : option User.t)
  : M (Reply (list Issue.t)) :=
  match user with
  | None => ret (Refused 401 "Authentication required")
  | Some user =>
      match User.role user with
      | UserRole.EMPLOYEE =>
          let! issues := getIssuesByReporter now (User.id user) in
          ret (Sent issues)
      | UserRole.DEPARTMENT =>
          let! issues :=
            getIssuesByDepartment now
              (Department.value (User.department user)) in
          ret (Sent issues)
      | UserRole.ADMIN =>
          (* For admins, only show escalated issues or issues with
             breached SLA *)
          let! allIssues := getAllIssues now in
          ret (Sent
                 (filter
                    (λ issue,
                       Issue.isEscalated issue = true
                       ∨ Issue.slaStatus issue = SLAStatus.BREACHED
                       ∨ Issue.slaStatus issue = SLAStatus.AT_RISK)
                    allIssues))
      end
  end.

(** [GET /api/issues/department/:department] *)
Definition get_issues_department (now : Z) (user : option User.t)
  (department : string) : M (Reply (list Issue.t)) :=
  requireRoleFor [UserRole.DEPARTMENT; UserRole.ADMIN] user (λ user,
    let! issues := getIssuesByDepartment now department in
    ret (Sent issues)).

(** Check access permissions: the reply that refuses to show an issue,
    if it is refused. *)
Definition read_refusal (user : User.t) (issue : Issue.t)
  : option Response :=
  if decide (User.role user = UserRole.EMPLOYEE
             ∧ Issue.reporterId issue ≠ User.id user) then
    Some (fail 403 "Access forbidden")
  else if decide (User.role user = UserRole.DEPARTMENT
                  ∧ Issue.department issue ≠ User.department user) then
    Some (fail 403 "Access forbidden")
  else None.

(** [GET /api/issues/:id] *)
Definition get_issue (now : Z) (user : option User.t) (id : Z)
  : M Response :=
  match user with
  | None => ret (fail 401 "Authentication required")
  | Some user =>
      let! issue := getIssue now id in
      match issue with
      | None => ret (fail 404 "Issue not found")
      | Some issue =>
          match read_refusal user issue with
          | Some response => ret response
          | None => ret (json (Some issue))
          end
      end
  end.

(** [PATCH /api/issues/:id/assign] *)
Definition patch_issues_assign (now : Z) (user : option User.t) (id : Z)
  (assigneeId : Z) : M Response :=
  requireRole [UserRole.DEPARTMENT; UserRole.ADMIN] user (λ user,
    let! issue := getIssue now id in
    match issue with
    | None => ret (fail 404 "Issue not found")
    | Some issue =>
        (* Department staff can only assign issues in their department *)
        if decide (User.role user = UserRole.DEPARTMENT
                   ∧ Issue.department issue ≠ User.department user) then
          ret (fail 403 "Access forbidden")
        else
          let! updatedIssue := assignIssue now id assigneeId in
          (* Create activity record *)
          let! activity :=
            createActivity now
              (InsertActivity.mk id (User.id user) "assigned"
                 (DetailsAssignee assigneeId)) in
          ret (json updatedIssue)
    end).

(** The body of the analytics reply. *)
Record Analytics := mkAnalytics {
  departmentPerformance : gmap string Number.t;
  overallPerformance : Number.t;
  statusCounts : gmap string Number.t;
  openIssues : Number.t;
  resolvedIssues : Number.t;
  escalatedCount : Z
}.

(** [statusCounts[status]] as an operand of [+]. *)
Definition countOf (statusCounts : gmap string Number.t)
  (status : IssueStatus.t) : Number.t :=
  Number.ofProperty (statusCounts !! IssueStatus.value status).

(** [GET /api/analytics] *)
Definition get_analytics (now : Z) (user : option User.t)
  : M (Reply Analytics) :=
  requireRoleFor [UserRole.ADMIN; UserRole.DEPARTMENT] user (λ user,
    let! slaPerformance := getSLAPerformanceByDepartment now in
    match slaPerformance with
    | None => ret (Refused 500 "Failed to fetch analytics data")
    | Some slaPerformance =>
        let! statusCounts := getIssueCountsByStatus now in
        let! escalatedCount := getEscalatedIssuesCount now in
        (* Calculate overall SLA performance *)
        let departments := map_to_list slaPerformance in
        let overallPerformance :=
          Number.div
            (foldl (λ acc dept, Number.add acc dept.2) (Number.ofZ 0)
               departments)
            (Number.ofZ (Z.of_nat (length departments))) in
        (* Calculate total open issues *)
        let openIssues :=
          Number.add
            (Number.add (countOf statusCounts IssueStatus.OPEN)
               (countOf statusCounts IssueStatus.IN_PROGRESS))
            (countOf statusCounts IssueStatus.ESCALATED) in
        (* Calculate total resolved issues *)
        let resolvedIssues :=
          Number.add (countOf statusCounts IssueStatus.VERIFIED)
            (countOf statusCounts IssueStatus.CLOSED) in
        ret (Sent
               (mkAnalytics slaPerformance (Number.round overallPerformance)
                  statusCounts openIssues resolvedIssues escalatedCount))
    end).
End Routes.

(** ** The error kinds of the specification

    The specification names the failures of an operation; the handlers
    send a status code and a message.  [errorKind] reads the one off the
    other. *)

Inductive ErrorKind :=
| ValidationError | NotFound | Forbidden | InvalidTransition
| AlreadyEscalated | NoOpChange.

Definition errorKind (r : Routes.Response) : option ErrorKind :=
  match Routes.body r with
  | Routes.JsonIssue _ => None
  | Routes.JsonMessage message =>
      if decide (Routes.statusCode r = 404) then Some NotFound
      else if decide (Routes.statusCode r = 403) then Some Forbidden
      else if decide (Routes.statusCode r = 400) then
        if decide (message = "Invalid status transition") then
          Some InvalidTransition
        else if decide (message = "Cannot escalate verified or closed issues")
        then Some InvalidTransition
        else if decide (message = "Issue is already escalated") then
          Some AlreadyEscalated
        else if decide
                  (message = "Issue is already assigned to this department")
        then Some NoOpChange
        else if decide (message = "Valid department is required") then
          Some ValidationError
        else None
      else None
  end.

(** A reply that carries an issue: the operation succeeded. *)
Definition succeeded (r : Routes.Response) : Prop :=
  Routes.statusCode r = 200
  ∧ ∃ issue, Routes.body r = Routes.JsonIssue (Some issue).

(** ** Vocabulary of the specification *)

(** The status-transition edges of the specification's state machine. *)
Definition edges : list (IssueStatus.t * IssueStatus.t) :=
  [ (IssueStatus.OPEN, IssueStatus.IN_PROGRESS);
    (IssueStatus.IN_PROGRESS, IssueStatus.PENDING);
    (IssueStatus.IN_PROGRESS, IssueStatus.COMPLETED);
    (IssueStatus.PENDING, IssueStatus.IN_PROGRESS);
    (IssueStatus.PENDING, IssueStatus.COMPLETED);
    (IssueStatus.COMPLETED, IssueStatus.VERIFIED);
    (IssueStatus.COMPLETED, IssueStatus.REJECTED) ].

Definition edge (currentStatus targetStatus : IssueStatus.t) : Prop :=
  (currentStatus, targetStatus) ∈ edges.

(** The terminal states of the ordinary flow. *)
Definition terminal (status : IssueStatus.t) : Prop :=
  status = IssueStatus.VERIFIED ∨ status = IssueStatus.CLOSED.

(** The specification's conditions under which a reporter may escalate:
    SLA status breached, or status rejected, or more than 48 hours since
    creation. *)
Definition reporter_may_escalate (now : Z) (issue : Issue.t) : Prop :=
  calculateSlaStatus now issue = SLAStatus.BREACHED
  ∨ Issue.status issue = IssueStatus.REJECTED
  ∨ now - Issue.createdAt issue > 48 * Date.msPerHour.

(** The specification's [percentLeft], as a rational. *)
Definition percentLeft (now : Z) (issue : Issue.t) (dueBy : Z) : Q :=
  (inject_Z (dueBy - now) / inject_Z (dueBy - Issue.createdAt issue)) * 100.

(** The number of stored issues with a given status. *)
Definition statusCount (s : MemStorage.t) (status : IssueStatus.t) : Z :=
  Z.of_nat
    (length
       (filter (λ issue, Issue.status issue = status)
          (MemStorage.issueValues s))).

(** The store's keys are the ids of its issues: [createIssue] stores an
    issue under its id, and every update stores it back there. *)
Definition keyed (s : MemStorage.t) : Prop :=
  ∀ (k : Z) (issue : Issue.t),
    MemStorage.issuesMap s !! k = Some issue → Issue.id issue = k.

(** An issue with its SLA status recomputed. *)
Definition recalculated (now : Z) (issue : Issue.t) : Issue.t :=
  Issue.with_slaStatus (calculateSlaStatus now issue) issue.

(** What a read does to the stored copy of an issue: it refreshes the
    cached SLA status and nothing else. *)
Definition refreshed (now : Z) (id : Z) (issue : Issue.t) (s : MemStorage.t)
  : MemStorage.t :=
  MemStorage.setIssue id (recalculated now issue) s.

(** The issue that [updateIssueStatus] builds from the one it has read. *)
Definition statusUpdate (now : Z) (status : IssueStatus.t) (issue : Issue.t)
  : Issue.t :=
  Issue.with_slaStatus
    (if decide (terminal status) then SLAStatus.COMPLETED
     else calculateSlaStatus now (Issue.with_status status issue))
    (Issue.with_updatedAt now (Issue.with_status status issue)).

(** The issue that [escalateIssue] builds from the stored one. *)
Definition escalation (now : Z) (issue : Issue.t) : Issue.t :=
  Issue.with_updatedAt now
    (Issue.with_status IssueStatus.ESCALATED
       (Issue.with_isEscalated true (recalculated now issue))).

(** The issue that [updateIssueDepartment] builds from the stored one. *)
Definition reassignment (now : Z) (department : Department.t)
  (issue : Issue.t) : Issue.t :=
  Issue.with_updatedAt now
    (Issue.with_department department (recalculated now issue)).

(** What [n] additions of 1 make of a property of the result object. *)
Definition counted (start : option Number.t) (n : nat) : option Number.t :=
  Nat.iter n (λ o, Some (Number.addU o (Number.ofZ 1))) start.

(** ** Sample data *)

Module Sample.
(** UTC+05:30 *)
Definition LocalTZA : Z := 19800000.
(** 2025-01-01T00:00:00Z *)
Definition T0 : Z := 1735689600000.

Definition admin : User.t :=
  User.mk 1 "admin" MemStorage.demoPassword "Admin User" "admin@example.com"
    UserRole.ADMIN Department.IT T0.
Definition itstaff : User.t :=
  User.mk 2 "itstaff" MemStorage.demoPassword "IT Staff" "it@example.com"
    UserRole.DEPARTMENT Department.IT T0.
Definition employee : User.t :=
  User.mk 3 "employee" MemStorage.demoPassword "Regular Employee"
    "employee@example.com"
    UserRole.EMPLOYEE Department.FINANCE T0.

Definition hrstaff : User.t :=
  User.mk 4 "hrstaff" MemStorage.demoPassword "HR Staff" "hr@example.com"
    UserRole.DEPARTMENT Department.HR T0.

Definition laptop (priority : string) : InsertIssue.t :=
  InsertIssue.mk "Laptop does not boot" "Black screen after the update"
    Department.IT IssueStatus.OPEN priority 3.

(** The seeded store after the employee has reported one critical issue
    at [T0]; the issue has id 1. *)
Definition issue1 : Issue.t :=
  (MemStorage.createIssue LocalTZA T0 (laptop "critical")
     (MemStorage.new T0)).1.
Definition store1 : MemStorage.t :=
  (MemStorage.createIssue LocalTZA T0 (laptop "critical")
     (MemStorage.new T0)).2.

(** Staff of the IT department take issue 1 up, then put it on hold. *)
Definition store1_in_progress : MemStorage.t :=
  (Routes.patch_issues_status (T0 + 1) (Some itstaff) 1
     IssueStatus.IN_PROGRESS store1).2.
Definition store1_pending : MemStorage.t :=
  (Routes.patch_issues_status (T0 + 2) (Some itstaff) 1
     IssueStatus.PENDING store1_in_progress).2.

(** Or they complete it, and the reporter verifies the resolution. *)
Definition store1_completed : MemStorage.t :=
  (Routes.patch_issues_status (T0 + 2) (Some itstaff) 1
     IssueStatus.COMPLETED store1_in_progress).2.
Definition store1_verified : MemStorage.t :=
  (Routes.patch_issues_status (T0 + 3) (Some employee) 1
     IssueStatus.VERIFIED store1_completed).2.
End Sample.

(** ** Requests and invariants *)

(** The requests that read or change issues, and the store that serving
    one leaves. *)
Inductive Request :=
| PostIssues (LocalTZA : Z) (body : InsertIssue.t)
| GetIssues
| GetIssuesMe
| GetIssuesDepartment (department : string)
| GetIssue (id : Z)
| PatchStatus (id : Z) (status : IssueStatus.t)
| PatchAssign (id : Z) (assigneeId : Z)
| PatchEscalate (id : Z) (reason : option string)
| GetAnalytics.

Definition serve (now : Z) (user : option User.t) (request : Request)
  (s : MemStorage.t) : MemStorage.t :=
  match request with
  | PostIssues LocalTZA body => (Routes.post_issues LocalTZA now user body s).2
  | GetIssues => (Routes.get_issues now user s).2
  | GetIssuesMe => (Routes.get_issues_me now user s).2
  | GetIssuesDepartment department =>
      (Routes.get_issues_department now user department s).2
  | GetIssue id => (Routes.get_issue now user id s).2
  | PatchStatus id status => (Routes.patch_issues_status now user id status s).2
  | PatchAssign id assigneeId =>
      (Routes.patch_issues_assign now user id assigneeId s).2
  | PatchEscalate id reason =>
      (Routes.patch_issues_escalate now user id reason s).2
  | GetAnalytics => (Routes.get_analytics now user s).2
  end.

(** The stores that a server reaches: the seeded one, and what serving a
    request makes of a reached one. *)
Inductive reachable : MemStorage.t → Prop :=
| reachable_new (now : Z) : reachable (MemStorage.new now)
| reachable_serve (now : Z) (user : option User.t) (request : Request)
    (s : MemStorage.t) :
    reachable s → reachable (serve now user request s).

(** Every entity is stored under its id, below the counter that gives
    the next id. *)
Definition consistent (s : MemStorage.t) : Prop :=
  (∀ k user, MemStorage.usersMap s !! k = Some user →
     User.id user = k ∧ k < MemStorage.userIdCounter s)
  ∧ (∀ k issue, MemStorage.issuesMap s !! k = Some issue →
       Issue.id issue = k ∧ k < MemStorage.issueIdCounter s)
  ∧ (∀ k activity, MemStorage.activitiesMap s !! k = Some activity →
       Activity.id activity = k ∧ k < MemStorage.activityIdCounter s).

(** What an issue keeps for life: the fields that no method writes, the
    escalation flag once it is set, and the comments it has. *)
Definition issue_kept (issue issue' : Issue.t) : Prop :=
  Issue.id issue' = Issue.id issue
  ∧ Issue.title issue' = Issue.title issue
  ∧ Issue.description issue' = Issue.description issue
  ∧ Issue.priority issue' = Issue.priority issue
  ∧ Issue.reporterId issue' = Issue.reporterId issue
  ∧ Issue.createdAt issue' = Issue.createdAt issue
  ∧ Issue.dueBy issue' = Issue.dueBy issue
  ∧ (Issue.isEscalated issue = true → Issue.isEscalated issue' = true)
  ∧ Issue.comments issue `prefix_of` Issue.comments issue'.

(** A later store: every issue is still there and has kept what it
    keeps; every user and every activity is still there, unaltered. *)
Definition evolves (s s' : MemStorage.t) : Prop :=
  (∀ k issue, MemStorage.issuesMap s !! k = Some issue →
     ∃ issue', MemStorage.issuesMap s' !! k = Some issue'
               ∧ issue_kept issue issue')
  ∧ MemStorage.activitiesMap s ⊆ MemStorage.activitiesMap s'
  ∧ MemStorage.usersMap s ⊆ MemStorage.usersMap s'.

(** A method that starts in a store satisfying [P] ends with a result
    and a store satisfying [Q]. *)
Definition hoare {A : Type} (P : MemStorage.t → Prop) (m : MemStorage.M A)
  (Q : A → MemStorage.t → Prop) : Prop :=
  ∀ s, P s → Q (m s).1 (m s).2.

(** The stores that [s0] can have become. *)
Definition after (s0 s : MemStorage.t) : Prop :=
  consistent s ∧ evolves s0 s.

(** How bad an SLA status is for an issue that is still running. *)
Definition severity (status : SLAStatus.t) : Z :=
  match status with
  | SLAStatus.ON_TRACK | SLAStatus.COMPLETED => 0
  | SLAStatus.AT_RISK => 1
  | SLAStatus.BREACHED => 2
  end.

(** The number of stored issues that are escalated. *)
Definition escalatedTotal (s : MemStorage.t) : Z :=
  Z.of_nat
    (length
       (filter (λ issue, Issue.isEscalated issue = true)
          (MemStorage.issueValues s))).

(** The issue that [assignIssue] builds from the stored one. *)
Definition assignment (now : Z) (assigneeId : Z) (issue : Issue.t)
  : Issue.t :=
  Issue.with_status
    (if decide (Issue.status issue = IssueStatus.OPEN)
     then IssueStatus.IN_PROGRESS else Issue.status issue)
    (Issue.with_updatedAt now
       (Issue.with_assigneeId (Some assigneeId) (recalculated now issue))).

(** The answer of [getSLAPerformanceByDepartment] when every department
    is at 100. *)
Definition allHundred : gmap string Number.t :=
  (λ _, Number.ofZ 100) <$> MemStorage.departmentZero.

(** Who may read an issue: an admin; an employee, the issues they
    reported; the staff of a department, the issues of that department. *)
Definition may_read (user : User.t) (issue : Issue.t) : Prop :=
  User.role user = UserRole.ADMIN
  ∨ (User.role user = UserRole.EMPLOYEE
     ∧ Issue.reporterId issue = User.id user)
  ∨ (User.role user = UserRole.DEPARTMENT
     ∧ Issue.department issue = User.department user).

(** The issues that [GET /api/issues/me] lists for a user. *)
Definition listed_for (now : Z) (user : User.t) (issue : Issue.t) : Prop :=
  match User.role user with
  | UserRole.EMPLOYEE => Issue.reporterId issue = User.id user
  | UserRole.DEPARTMENT => Issue.department issue = User.department user
  | UserRole.ADMIN =>
      Issue.isEscalated issue = true
      ∨ calculateSlaStatus now issue = SLAStatus.BREACHED
      ∨ calculateSlaStatus now issue = SLAStatus.AT_RISK
  end.

(** The issue that [addComment] builds from the stored one. *)
Definition commented (now : Z) (comment : Comment.t) (issue : Issue.t)
  : Issue.t :=
  Issue.with_updatedAt now
    (Issue.with_comments (Issue.comments issue ++ [comment])
       (recalculated now issue)).

(** * Properties *)

(** ** Dates *)

Lemma setHours_getHours_add (LocalTZA t h : Z) :
  Date.setHours LocalTZA t (Date.getHours LocalTZA t + h)
  = t + h * Date.msPerHour.
Proof.
  unfold Date.setHours, Date.getHours, Date.UTC, Date.MakeDate, Date.MakeTime,
    Date.Day, Date.HourFromTime, Date.MinFromTime, Date.SecFromTime,
    Date.msFromTime, Date.LocalTime, Date.msPerDay, Date.msPerHour,
    Date.msPerMinute, Date.msPerSecond, Date.HoursPerDay,
    Date.MinutesPerHour, Date.SecondsPerMinute.
  set (l := t + LocalTZA).
  assert (Ht : t = l - LocalTZA) by lia.
  clearbody l. subst t.
  Z.div_mod_to_equations. lia.
Qed.

(** ** The SLA calculator *)

Lemma calculateSlaStatus_no_dueBy (now : Z) (issue : Issue.t) :
  Issue.dueBy issue = None →
  calculateSlaStatus now issue = SLAStatus.ON_TRACK.
Proof. intros H. unfold calculateSlaStatus. by rewrite H. Qed.

Lemma calculateSlaStatus_terminal (now : Z) (issue : Issue.t) (dueBy : Z) :
  Issue.dueBy issue = Some dueBy →
  terminal (Issue.status issue) →
  calculateSlaStatus now issue = SLAStatus.COMPLETED.
Proof.
  intros H Ht. unfold calculateSlaStatus. rewrite H.
  by rewrite decide_True.
Qed.

Lemma calculateSlaStatus_breached (now : Z) (issue : Issue.t) (dueBy : Z) :
  Issue.dueBy issue = Some dueBy →
  ¬ terminal (Issue.status issue) →
  now > dueBy →
  calculateSlaStatus now issue = SLAStatus.BREACHED.
Proof.
  intros H Ht Hlate. unfold calculateSlaStatus. rewrite H.
  rewrite decide_False by done. by rewrite decide_True.
Qed.

(** Before the deadline, and when the deadline is not the creation time,
    the test of the code is the comparison of [percentLeft] with 25. *)
Lemma calculateSlaStatus_running (now : Z) (issue : Issue.t) (dueBy : Z) :
  Issue.dueBy issue = Some dueBy →
  ¬ terminal (Issue.status issue) →
  now <= dueBy →
  dueBy ≠ Issue.createdAt issue →
  calculateSlaStatus now issue
  = if Qle_bool (percentLeft now issue dueBy) 25 then SLAStatus.AT_RISK
    else SLAStatus.ON_TRACK.
Proof.
  intros H Ht Hnow Hne. unfold calculateSlaStatus. rewrite H.
  rewrite decide_False by done.
  rewrite decide_False by lia.
  cbn [Number.ofZ Number.div].
  rewrite decide_False.
  - reflexivity.
  - unfold Number.sign. cbn [inject_Z Qnum]. lia.
Qed.

(** When the deadline is the creation time the quotient is not a number
    or infinite, the comparison fails and the issue is on track. *)
Lemma calculateSlaStatus_no_span (now : Z) (issue : Issue.t) :
  Issue.dueBy issue = Some (Issue.createdAt issue) →
  ¬ terminal (Issue.status issue) →
  now <= Issue.createdAt issue →
  calculateSlaStatus now issue = SLAStatus.ON_TRACK.
Proof.
  intros H Ht Hnow. unfold calculateSlaStatus. rewrite H.
  rewrite decide_False by done.
  rewrite decide_False by lia.
  rewrite Z.sub_diag. cbn [Number.ofZ Number.div].
  rewrite decide_True by done.
  unfold Number.sign, Number.signed_inf. cbn [inject_Z Qnum].
  destruct (decide (Z.sgn (Issue.createdAt issue - now) = 0)); [done|].
  rewrite decide_True by lia. done.
Qed.

(** With a deadline after the creation time the test is one of integers:
    at most a quarter of the allowed time is left. *)
Lemma percentLeft_quarter (now : Z) (issue : Issue.t) (dueBy : Z) :
  Issue.createdAt issue < dueBy →
  Qle_bool (percentLeft now issue dueBy) 25 = true
  ↔ 4 * (dueBy - now) <= dueBy - Issue.createdAt issue.
Proof.
  intros Hlt. rewrite Qle_bool_iff. unfold percentLeft.
  set (a := dueBy - now). set (b := dueBy - Issue.createdAt issue).
  assert (Hb : 0 < b) by (unfold b; lia). clearbody a b.
  destruct b as [|p|p]; try lia.
  unfold Qle, Qdiv, Qmult, Qinv, inject_Z. cbn.
  rewrite ?Pos.mul_1_r, ?Z.mul_1_r. lia.
Qed.

(** ** Creating an issue *)

Lemma hoursToAdd_SLATimes (priority : SLAPriority.t) :
  MemStorage.hoursToAdd (SLAPriority.value priority) = SLATimes priority.
Proof. by destruct priority. Qed.

Lemma SLAPriority_value_truthy (priority : SLAPriority.t) :
  SLAPriority.value priority ≠ "".
Proof. by destruct priority. Qed.

Lemma createIssue_stored (LocalTZA now : Z) (insertIssue : InsertIssue.t)
  (s : MemStorage.t) :
  let created := MemStorage.createIssue LocalTZA now insertIssue s in
  MemStorage.issuesMap created.2 !! Issue.id created.1 = Some created.1.
Proof. cbn. apply lookup_insert_eq. Qed.

Lemma createIssue_dueBy (LocalTZA now : Z) (insertIssue : InsertIssue.t)
  (s : MemStorage.t) :
  InsertIssue.priority insertIssue ≠ "" →
  Issue.dueBy (MemStorage.createIssue LocalTZA now insertIssue s).1
  = Some (now
          + MemStorage.hoursToAdd (InsertIssue.priority insertIssue)
            * Date.msPerHour).
Proof.
  intros Hp. cbn. rewrite decide_True by done.
  by rewrite setHours_getHours_add.
Qed.



(** ** The SLA status of a running issue *)

Lemma calculateSlaStatus_critical (LocalTZA T0 : Z)
  (insertIssue : InsertIssue.t) (s : MemStorage.t) :
  InsertIssue.priority insertIssue = SLAPriority.value SLAPriority.CRITICAL →
  ¬ terminal (InsertIssue.status insertIssue) →
  let issue := (MemStorage.createIssue LocalTZA T0 insertIssue s).1 in
  calculateSlaStatus (T0 + 3 * Date.msPerHour + 15 * Date.msPerMinute) issue
  = SLAStatus.AT_RISK
  ∧ calculateSlaStatus (T0 + 4 * Date.msPerHour + 1 * Date.msPerMinute) issue
    = SLAStatus.BREACHED.
Proof.
  intros Hp Ht issue.
  assert (Hdue : Issue.dueBy issue = Some (T0 + 4 * Date.msPerHour)).
  { unfold issue. rewrite createIssue_dueBy by (by rewrite Hp).
    by rewrite Hp. }
  assert (Hc : Issue.createdAt issue = T0) by done.
  assert (Hs : ¬ terminal (Issue.status issue)) by done.
  unfold Date.msPerHour, Date.msPerMinute in *.
  split.
  - rewrite (calculateSlaStatus_running _ _ _ Hdue Hs) by lia.
    destruct (Qle_bool _ _) eqn:Hq; [done|].
    assert (Hq' : Qle_bool (percentLeft (T0 + 3 * 3600000 + 15 * 60000) issue
                              (T0 + 4 * 3600000)) 25 = true).
    { apply percentLeft_quarter; lia. }
    congruence.
  - apply (calculateSlaStatus_breached _ _ _ Hdue Hs). lia.
Qed.



(** ** Reading and updating a stored issue *)

Lemma getIssue_found (now id : Z) (s : MemStorage.t) (issue : Issue.t) :
  MemStorage.issuesMap s !! id = Some issue →
  MemStorage.getIssue now id s
  = (Some (recalculated now issue), refreshed now id issue s).
Proof. intros H. unfold MemStorage.getIssue. by rewrite H. Qed.

Lemma getIssue_missing (now id : Z) (s : MemStorage.t) :
  MemStorage.issuesMap s !! id = None →
  MemStorage.getIssue now id s = (None, s).
Proof. intros H. unfold MemStorage.getIssue. by rewrite H. Qed.

Lemma setIssue_setIssue (id : Z) (a b : Issue.t) (s : MemStorage.t) :
  MemStorage.setIssue id a (MemStorage.setIssue id b s)
  = MemStorage.setIssue id a s.
Proof. unfold MemStorage.setIssue. cbn. by rewrite insert_insert_eq. Qed.

Lemma setIssue_lookup (id : Z) (a : Issue.t) (s : MemStorage.t) :
  MemStorage.issuesMap (MemStorage.setIssue id a s) !! id = Some a.
Proof. cbn. apply lookup_insert_eq. Qed.

Lemma setIssue_lookup_ne (id id' : Z) (a : Issue.t) (s : MemStorage.t) :
  id ≠ id' →
  MemStorage.issuesMap (MemStorage.setIssue id a s) !! id'
  = MemStorage.issuesMap s !! id'.
Proof. intros Hne. cbn. by apply lookup_insert_ne. Qed.

Lemma updateIssueStatus_found (now id : Z) (status : IssueStatus.t)
  (s : MemStorage.t) (issue : Issue.t) :
  MemStorage.issuesMap s !! id = Some issue →
  MemStorage.updateIssueStatus now id status s
  = (Some (statusUpdate now status issue),
     MemStorage.setIssue id (statusUpdate now status issue) s).
Proof.
  intros H. unfold MemStorage.updateIssueStatus, MemStorage.bind.
  rewrite (getIssue_found _ _ _ _ H). unfold refreshed.
  rewrite setIssue_setIssue. reflexivity.
Qed.

(** A status update to verified or closed stores [completed], with or
    without a deadline. *)
Lemma updateIssueStatus_terminal (now id : Z) (status : IssueStatus.t)
  (s : MemStorage.t) (issue : Issue.t) :
  MemStorage.issuesMap s !! id = Some issue →
  terminal status →
  Issue.slaStatus
    <$> (MemStorage.updateIssueStatus now id status s).1
  = Some SLAStatus.COMPLETED.
Proof.
  intros H Ht. rewrite (updateIssueStatus_found _ _ _ _ _ H). cbn.
  by rewrite decide_True.
Qed.

(** A read answers [on_track] for an issue without a deadline, also
    when the issue is verified or closed. *)
Lemma getIssue_no_dueBy (now id : Z) (s : MemStorage.t) (issue : Issue.t) :
  MemStorage.issuesMap s !! id = Some issue →
  Issue.dueBy issue = None →
  Issue.slaStatus <$> (MemStorage.getIssue now id s).1
  = Some SLAStatus.ON_TRACK.
Proof.
  intros H Hdue. rewrite (getIssue_found _ _ _ _ H). cbn.
  by rewrite calculateSlaStatus_no_dueBy.
Qed.

(** And [completed] for a verified or closed issue with a deadline. *)
Lemma getIssue_terminal (now id : Z) (s : MemStorage.t) (issue : Issue.t)
  (dueBy : Z) :
  MemStorage.issuesMap s !! id = Some issue →
  Issue.dueBy issue = Some dueBy →
  terminal (Issue.status issue) →
  Issue.slaStatus <$> (MemStorage.getIssue now id s).1
  = Some SLAStatus.COMPLETED.
Proof.
  intros H Hdue Ht. rewrite (getIssue_found _ _ _ _ H). cbn.
  by rewrite (calculateSlaStatus_terminal _ _ _ Hdue Ht).
Qed.

(** C1 fails on an issue that has no deadline (one created with an empty
    priority): the status update to verified answers [completed], and
    the next read of the same issue answers [on_track]. *)
Theorem C1_verified_without_dueBy_reads_on_track :
  let s1 :=
    (MemStorage.createIssue Sample.LocalTZA Sample.T0 (Sample.laptop "")
       (MemStorage.new Sample.T0)).2 in
  let verified :=
    MemStorage.updateIssueStatus (Sample.T0 + 1) 1 IssueStatus.VERIFIED s1 in
  let read := MemStorage.getIssue (Sample.T0 + 2) 1 verified.2 in
  Issue.dueBy <$> verified.1 = Some None
  ∧ Issue.slaStatus <$> verified.1 = Some SLAStatus.COMPLETED
  ∧ Issue.status <$> read.1 = Some IssueStatus.VERIFIED
  ∧ Issue.slaStatus <$> read.1 = Some SLAStatus.ON_TRACK.
Proof. vm_compute. done. Qed.

(** C10: [updateIssueStatus] on a stored issue answers and stores an
    issue that agrees with the stored one on every field other than
    [status], [slaStatus] and [updatedAt]; the rest of the store is
    left as it was. *)
Theorem C10_updateIssueStatus_frame (now id : Z) (status : IssueStatus.t)
  (s : MemStorage.t) (issue : Issue.t) :
  MemStorage.issuesMap s !! id = Some issue →
  ∃ updated : Issue.t,
    MemStorage.updateIssueStatus now id status s
    = (Some updated, MemStorage.setIssue id updated s)
    ∧ Issue.status updated = status
    ∧ Issue.updatedAt updated = now
    ∧ Issue.id updated = Issue.id issue
    ∧ Issue.title updated = Issue.title issue
    ∧ Issue.description updated = Issue.description issue
    ∧ Issue.department updated = Issue.department issue
    ∧ Issue.priority updated = Issue.priority issue
    ∧ Issue.reporterId updated = Issue.reporterId issue
    ∧ Issue.assigneeId updated = Issue.assigneeId issue
    ∧ Issue.createdAt updated = Issue.createdAt issue
    ∧ Issue.dueBy updated = Issue.dueBy issue
    ∧ Issue.isEscalated updated = Issue.isEscalated issue
    ∧ Issue.comments updated = Issue.comments issue.
Proof.
  intros H. exists (statusUpdate now status issue).
  split; [by apply updateIssueStatus_found|]. by repeat split.
Qed.

(** C10 at work: issue 1 keeps its title and deadline when it is taken
    up. *)
Lemma C10_witness :
  MemStorage.issuesMap Sample.store1 !! 1 = Some Sample.issue1
  ∧ ∃ updated : Issue.t,
      (MemStorage.updateIssueStatus (Sample.T0 + 1) 1 IssueStatus.IN_PROGRESS
         Sample.store1).1 = Some updated
      ∧ Issue.status updated = IssueStatus.IN_PROGRESS
      ∧ Issue.title updated = "Laptop does not boot"
      ∧ Issue.dueBy updated = Some (Sample.T0 + 4 * Date.msPerHour).
Proof.
  assert (H : MemStorage.issuesMap Sample.store1 !! 1 = Some Sample.issue1)
    by (vm_compute; reflexivity).
  split; [exact H|].
  destruct (C10_updateIssueStatus_frame (Sample.T0 + 1) 1
              IssueStatus.IN_PROGRESS Sample.store1 Sample.issue1 H)
    as (updated & Hrun & Hst & _ & _ & Htitle & _ & _ & _ & _ & _ & _
        & Hdue & _).
  exists updated. rewrite Hrun, Htitle, Hdue. repeat split; try done.
Defined.

(** ** The status route *)

(** The cached SLA status plays no part in its recalculation. *)
Lemma calculateSlaStatus_recalculated (now now' : Z) (issue : Issue.t) :
  calculateSlaStatus now (recalculated now' issue)
  = calculateSlaStatus now issue.
Proof. reflexivity. Qed.

Lemma statusUpdate_recalculated (now now' : Z) (status : IssueStatus.t)
  (issue : Issue.t) :
  statusUpdate now status (recalculated now' issue)
  = statusUpdate now status issue.
Proof. reflexivity. Qed.

Lemma refreshed_lookup (now id : Z) (issue : Issue.t) (s : MemStorage.t) :
  MemStorage.issuesMap (refreshed now id issue s) !! id
  = Some (recalculated now issue).
Proof. apply setIssue_lookup. Qed.

Lemma refreshed_activitiesMap (now id : Z) (issue : Issue.t)
  (s : MemStorage.t) :
  MemStorage.activitiesMap (refreshed now id issue s)
  = MemStorage.activitiesMap s.
Proof. reflexivity. Qed.

(** What the status route does once the issue is found. *)
Lemma patch_issues_status_found (now : Z) (user : User.t) (id : Z)
  (status : IssueStatus.t) (s : MemStorage.t) (issue : Issue.t) :
  MemStorage.issuesMap s !! id = Some issue →
  Routes.patch_issues_status now (Some user) id status s
  = match Routes.status_refusal user issue status with
    | Some response => (response, refreshed now id issue s)
    | None =>
        (Routes.json (Some (statusUpdate now status issue)),
         (MemStorage.createActivity now
            (InsertActivity.mk id (User.id user) "updated_status"
               (DetailsStatus (Issue.status issue) status))
            (MemStorage.setIssue id (statusUpdate now status issue) s)).2)
    end.
Proof.
  intros H. unfold Routes.patch_issues_status, MemStorage.bind.
  rewrite (getIssue_found _ _ _ _ H).
  change (Routes.status_refusal user (recalculated now issue) status)
    with (Routes.status_refusal user issue status).
  destruct (Routes.status_refusal user issue status) as [response|];
    [reflexivity|].
  rewrite (updateIssueStatus_found _ _ _ _ _ (refreshed_lookup _ _ _ _)).
  rewrite statusUpdate_recalculated. unfold refreshed.
  rewrite setIssue_setIssue. reflexivity.
Qed.

Ltac by_status a b H :=
  destruct a, b; try reflexivity; exfalso; apply H;
  unfold edge, edges; set_solver.

(** The reporter's branch refuses every pair that is not an edge. *)
Lemma status_refusal_employee (user : User.t) (issue : Issue.t)
  (status : IssueStatus.t) :
  User.role user = UserRole.EMPLOYEE →
  Issue.reporterId issue = User.id user →
  ¬ edge (Issue.status issue) status →
  Routes.status_refusal user issue status
  = Some (Routes.fail 400 "Invalid status transition").
Proof.
  intros Hrole Hrep Hne. unfold Routes.status_refusal.
  rewrite Hrole, Hrep. rewrite decide_True by done.
  rewrite decide_False by (intros Hc; by apply Hc).
  by_status (Issue.status issue) status Hne.
Qed.

(** So does the branch of the staff of the issue's department. *)
Lemma status_refusal_department (user : User.t) (issue : Issue.t)
  (status : IssueStatus.t) :
  User.role user = UserRole.DEPARTMENT →
  Issue.department issue = User.department user →
  ¬ edge (Issue.status issue) status →
  Routes.status_refusal user issue status
  = Some (Routes.fail 400 "Invalid status transition").
Proof.
  intros Hrole Hdep Hne. unfold Routes.status_refusal.
  rewrite Hrole, Hdep. rewrite decide_False by done.
  rewrite decide_True by done.
  rewrite decide_False by (intros Hc; by apply Hc).
  by_status (Issue.status issue) status Hne.
Qed.

(** The pairs that the branch of the department's staff lets through. *)
Lemma status_refusal_department_accepts (user : User.t) (issue : Issue.t)
  (status : IssueStatus.t) :
  User.role user = UserRole.DEPARTMENT →
  Issue.department issue = User.department user →
  (Issue.status issue, status)
  ∈ [ (IssueStatus.OPEN, IssueStatus.IN_PROGRESS);
      (IssueStatus.IN_PROGRESS, IssueStatus.PENDING);
      (IssueStatus.IN_PROGRESS, IssueStatus.COMPLETED);
      (IssueStatus.PENDING, IssueStatus.COMPLETED) ] →
  Routes.status_refusal user issue status = None.
Proof.
  intros Hrole Hdep Hin. unfold Routes.status_refusal.
  rewrite Hrole, Hdep. rewrite decide_False by done.
  rewrite decide_True by done.
  rewrite decide_False by (intros Hc; by apply Hc).
  destruct (Issue.status issue), status; try reflexivity; exfalso;
    repeat (apply elem_of_cons in Hin as [Hin|Hin]; [discriminate|]);
    by apply elem_of_nil in Hin.
Qed.

(** Outside their scope both are refused whatever the pair. *)
Lemma status_refusal_out_of_scope (user : User.t) (issue : Issue.t)
  (status : IssueStatus.t) :
  (User.role user = UserRole.EMPLOYEE
   ∧ Issue.reporterId issue ≠ User.id user)
  ∨ (User.role user = UserRole.DEPARTMENT
     ∧ Issue.department issue ≠ User.department user) →
  Routes.status_refusal user issue status
  = Some (Routes.fail 403 "Access forbidden").
Proof.
  intros [[Hrole Hne]|[Hrole Hne]]; unfold Routes.status_refusal;
    rewrite Hrole.
  - rewrite decide_True by done. by rewrite decide_True.
  - rewrite decide_False by done. rewrite decide_True by done.
    by rewrite decide_True.
Qed.

(** An admin is never refused. *)
Lemma status_refusal_admin (user : User.t) (issue : Issue.t)
  (status : IssueStatus.t) :
  User.role user = UserRole.ADMIN →
  Routes.status_refusal user issue status = None.
Proof. intros Hrole. unfold Routes.status_refusal. by rewrite Hrole. Qed.

(** C2, as the code has it: a status update along a pair that is not an
    edge, requested by the issue's reporter (an employee) or by staff of
    the issue's department, is refused as an invalid transition; the
    store is then as the read left it, that is, unchanged but for the
    cached SLA status of the issue.  An employee who is not the reporter
    and staff of another department are refused as forbidden, with the
    same store. *)
Theorem C2_non_edge_refused (now : Z) (user : User.t) (id : Z)
  (status : IssueStatus.t) (s : MemStorage.t) (issue : Issue.t) :
  MemStorage.issuesMap s !! id = Some issue →
  ¬ edge (Issue.status issue) status →
  let reply := Routes.patch_issues_status now (Some user) id status s in
  ((User.role user = UserRole.EMPLOYEE
    ∧ Issue.reporterId issue = User.id user)
   ∨ (User.role user = UserRole.DEPARTMENT
      ∧ Issue.department issue = User.department user) →
   errorKind reply.1 = Some InvalidTransition
   ∧ reply.2 = refreshed now id issue s)
  ∧ ((User.role user = UserRole.EMPLOYEE
      ∧ Issue.reporterId issue ≠ User.id user)
     ∨ (User.role user = UserRole.DEPARTMENT
        ∧ Issue.department issue ≠ User.department user) →
     errorKind reply.1 = Some Forbidden
     ∧ reply.2 = refreshed now id issue s).
Proof.
  intros H Hne reply. unfold reply.
  rewrite (patch_issues_status_found _ _ _ _ _ _ H). split.
  - intros [[Hrole Hs]|[Hrole Hs]].
    + by rewrite status_refusal_employee.
    + by rewrite status_refusal_department.
  - intros Hout. by rewrite status_refusal_out_of_scope.
Qed.

Lemma not_edge_open_completed :
  ¬ edge IssueStatus.OPEN IssueStatus.COMPLETED.
Proof.
  unfold edge, edges. intros H.
  repeat (apply elem_of_cons in H as [H|H]; [discriminate|]).
  by apply elem_of_nil in H.
Qed.

Lemma store1_issue1 :
  MemStorage.issuesMap Sample.store1 !! 1 = Some Sample.issue1.
Proof. vm_compute. reflexivity. Qed.

(** C2 at work on the open issue 1 and the target completed: staff of
    the IT department are refused an invalid transition; staff of the
    HR department are forbidden. *)
Lemma C2_witness :
  let reply user :=
    Routes.patch_issues_status (Sample.T0 + 1) (Some user) 1
      IssueStatus.COMPLETED Sample.store1 in
  MemStorage.issuesMap Sample.store1 !! 1 = Some Sample.issue1
  ∧ ¬ edge (Issue.status Sample.issue1) IssueStatus.COMPLETED
  ∧ errorKind (reply Sample.itstaff).1 = Some InvalidTransition
  ∧ (reply Sample.itstaff).2
    = refreshed (Sample.T0 + 1) 1 Sample.issue1 Sample.store1
  ∧ errorKind (reply Sample.hrstaff).1 = Some Forbidden.
Proof.
  intros reply.
  split; [exact store1_issue1|].
  split; [exact not_edge_open_completed|].
  destruct (C2_non_edge_refused (Sample.T0 + 1) Sample.itstaff 1
              IssueStatus.COMPLETED Sample.store1 Sample.issue1
              store1_issue1 not_edge_open_completed) as [Hin _].
  destruct (C2_non_edge_refused (Sample.T0 + 1) Sample.hrstaff 1
              IssueStatus.COMPLETED Sample.store1 Sample.issue1
              store1_issue1 not_edge_open_completed) as [_ Hout].
  destruct Hin as [Hk Hs]; [right; split; reflexivity|].
  destruct Hout as [Hf _]; [right; split; [reflexivity|discriminate]|].
  split; [exact Hk|]. split; [exact Hs|exact Hf].
Defined.

(** C2 fails for an admin: the status route checks no edge for that
    role.  On the open issue 1 the update to completed is applied. *)
Lemma C2_counterexample_admin :
  let reply :=
    Routes.patch_issues_status (Sample.T0 + 1) (Some Sample.admin) 1
      IssueStatus.COMPLETED Sample.store1 in
  Issue.status <$> MemStorage.issuesMap Sample.store1 !! 1
  = Some IssueStatus.OPEN
  ∧ ¬ edge IssueStatus.OPEN IssueStatus.COMPLETED
  ∧ errorKind reply.1 ≠ Some InvalidTransition
  ∧ succeeded reply.1
  ∧ Issue.status <$> MemStorage.issuesMap reply.2 !! 1
    = Some IssueStatus.COMPLETED.
Proof.
  intros reply.
  split; [vm_compute; reflexivity|].
  split; [exact not_edge_open_completed|].
  split; [vm_compute; discriminate|].
  split; [|vm_compute; reflexivity].
  split; [vm_compute; reflexivity|].
  eexists. vm_compute. reflexivity.
Qed.

(** ** The escalation route *)

Lemma escalateIssue_found (now id : Z) (s : MemStorage.t) (issue : Issue.t) :
  MemStorage.issuesMap s !! id = Some issue →
  MemStorage.escalateIssue now id s
  = (Some (escalation now issue),
     MemStorage.setIssue id (escalation now issue) s).
Proof.
  intros H. unfold MemStorage.escalateIssue, MemStorage.bind.
  rewrite (getIssue_found _ _ _ _ H). unfold refreshed.
  rewrite setIssue_setIssue. reflexivity.
Qed.

(** What the escalation route does once the issue is found. *)
Lemma patch_issues_escalate_found (now : Z) (user : User.t) (id : Z)
  (reason : option string) (s : MemStorage.t) (issue : Issue.t) :
  MemStorage.issuesMap s !! id = Some issue →
  Routes.patch_issues_escalate now (Some user) id reason s
  = match Routes.escalate_refusal user issue with
    | Some response => (response, refreshed now id issue s)
    | None =>
        (Routes.json (Some (escalation now issue)),
         (MemStorage.createActivity now
            (InsertActivity.mk id (User.id user) "escalated"
               (DetailsReason (Routes.reason_or_default reason)))
            (MemStorage.setIssue id (escalation now issue) s)).2)
    end.
Proof.
  intros H. unfold Routes.patch_issues_escalate, MemStorage.bind.
  rewrite (getIssue_found _ _ _ _ H).
  change (Routes.escalate_refusal user (recalculated now issue))
    with (Routes.escalate_refusal user issue).
  destruct (Routes.escalate_refusal user issue) as [response|];
    [reflexivity|].
  rewrite (escalateIssue_found _ _ _ _ (refreshed_lookup _ _ _ _)).
  unfold refreshed. rewrite setIssue_setIssue. reflexivity.
Qed.

(** C3, as the code has it: the reporter's escalation of an issue that
    is not escalated and not verified or closed succeeds, whatever the
    SLA status, the status and the age of the issue; the stored issue is
    then escalated, with status [escalated], and one [escalated]
    activity is recorded. *)
Theorem C3_reporter_escalation_succeeds (now : Z) (user : User.t) (id : Z)
  (reason : option string) (s : MemStorage.t) (issue : Issue.t) :
  MemStorage.issuesMap s !! id = Some issue →
  User.role user = UserRole.EMPLOYEE →
  Issue.reporterId issue = User.id user →
  Issue.isEscalated issue = false →
  ¬ terminal (Issue.status issue) →
  let reply := Routes.patch_issues_escalate now (Some user) id reason s in
  ∃ updated : Issue.t,
    reply.1 = Routes.json (Some updated)
    ∧ MemStorage.issuesMap reply.2 !! id = Some updated
    ∧ Issue.isEscalated updated = true
    ∧ Issue.status updated = IssueStatus.ESCALATED
    ∧ MemStorage.activitiesMap reply.2
      = <[MemStorage.activityIdCounter s :=
            Activity.mk (MemStorage.activityIdCounter s) id (User.id user)
              "escalated" (DetailsReason (Routes.reason_or_default reason))
              now]> (MemStorage.activitiesMap s).
Proof.
  intros H Hrole Hrep Hesc Ht reply. unfold reply.
  rewrite (patch_issues_escalate_found _ _ _ _ _ _ H).
  unfold Routes.escalate_refusal.
  rewrite Hrole, Hrep, Hesc. rewrite decide_True by done.
  rewrite decide_False by (intros Hc; by apply Hc).
  rewrite decide_False by done.
  exists (escalation now issue). cbn.
  split; [done|]. split; [apply lookup_insert_eq|done].
Qed.

Lemma store1_issue1_fresh :
  Issue.isEscalated Sample.issue1 = false
  ∧ Issue.status Sample.issue1 = IssueStatus.OPEN
  ∧ Issue.reporterId Sample.issue1 = User.id Sample.employee
  ∧ Issue.createdAt Sample.issue1 = Sample.T0.
Proof. by vm_compute. Qed.

Lemma not_terminal_open : ¬ terminal IssueStatus.OPEN.
Proof. by intros [H|H]. Qed.

(** C3 at work: five hours after reporting issue 1 the employee
    escalates it. *)
Lemma C3_witness :
  MemStorage.issuesMap Sample.store1 !! 1 = Some Sample.issue1
  ∧ User.role Sample.employee = UserRole.EMPLOYEE
  ∧ Issue.reporterId Sample.issue1 = User.id Sample.employee
  ∧ Issue.isEscalated Sample.issue1 = false
  ∧ ¬ terminal (Issue.status Sample.issue1)
  ∧ ∃ updated : Issue.t,
      (Routes.patch_issues_escalate (Sample.T0 + 5 * Date.msPerHour)
         (Some Sample.employee) 1 None Sample.store1).1
      = Routes.json (Some updated)
      ∧ Issue.isEscalated updated = true
      ∧ Issue.status updated = IssueStatus.ESCALATED.
Proof.
  split; [exact store1_issue1|].
  split; [reflexivity|]. split; [reflexivity|]. split; [reflexivity|].
  split; [exact not_terminal_open|].
  destruct (C3_reporter_escalation_succeeds (Sample.T0 + 5 * Date.msPerHour)
              Sample.employee 1 None Sample.store1 Sample.issue1
              store1_issue1 eq_refl eq_refl eq_refl not_terminal_open)
    as (updated & Hreply & _ & Hesc & Hstatus & _).
  exists updated. split; [exact Hreply|]. split; [exact Hesc|exact Hstatus].
Defined.

(** C3 fails: the route asks for none of the three conditions.  One
    millisecond after the employee has reported the critical issue 1, it
    is on track, open and new, and the reporter's escalation succeeds. *)
Lemma C3_counterexample_fresh_issue :
  let now := Sample.T0 + 1 in
  let reply :=
    Routes.patch_issues_escalate now (Some Sample.employee) 1 None
      Sample.store1 in
  MemStorage.issuesMap Sample.store1 !! 1 = Some Sample.issue1
  ∧ User.role Sample.employee = UserRole.EMPLOYEE
  ∧ Issue.reporterId Sample.issue1 = User.id Sample.employee
  ∧ Issue.isEscalated Sample.issue1 = false
  ∧ ¬ terminal (Issue.status Sample.issue1)
  ∧ ¬ reporter_may_escalate now Sample.issue1
  ∧ succeeded reply.1
  ∧ Issue.isEscalated <$> MemStorage.issuesMap reply.2 !! 1 = Some true.
Proof.
  intros now reply.
  split; [exact store1_issue1|].
  split; [reflexivity|]. split; [reflexivity|]. split; [reflexivity|].
  split; [exact not_terminal_open|].
  split.
  { intros [H|[H|H]]; vm_compute in H; discriminate. }
  split; [|vm_compute; reflexivity].
  split; [vm_compute; reflexivity|].
  eexists. vm_compute. reflexivity.
Qed.

(** C4, as the code has it: the checks are those of the reporter's
    branch.  The reporter's escalation of an issue that is already
    escalated is refused as already escalated; of one that is not
    escalated and is verified or closed, as an invalid transition.
    Either way no activity is recorded and the store is as the read left
    it: unchanged but for the cached SLA status of the issue. *)
Theorem C4_reporter_escalation_refused (now : Z) (user : User.t) (id : Z)
  (reason : option string) (s : MemStorage.t) (issue : Issue.t) :
  MemStorage.issuesMap s !! id = Some issue →
  User.role user = UserRole.EMPLOYEE →
  Issue.reporterId issue = User.id user →
  let reply := Routes.patch_issues_escalate now (Some user) id reason s in
  (Issue.isEscalated issue = true →
   errorKind reply.1 = Some AlreadyEscalated
   ∧ reply.2 = refreshed now id issue s)
  ∧ (Issue.isEscalated issue = false → terminal (Issue.status issue) →
     errorKind reply.1 = Some InvalidTransition
     ∧ reply.2 = refreshed now id issue s).
Proof.
  intros H Hrole Hrep reply. unfold reply.
  rewrite (patch_issues_escalate_found _ _ _ _ _ _ H).
  unfold Routes.escalate_refusal.
  rewrite Hrole, Hrep. rewrite decide_True by done.
  rewrite decide_False by (intros Hc; by apply Hc).
  split.
  - intros Hesc. by rewrite Hesc.
  - intros Hesc Ht. rewrite Hesc. by rewrite decide_True.
Qed.

(** C4 at work: the employee cannot escalate issue 1 a second time, nor
    once it is verified. *)
Lemma C4_witness :
  let escalated :=
    (Routes.patch_issues_escalate (Sample.T0 + 1) (Some Sample.employee) 1
       None Sample.store1).2 in
  let again :=
    Routes.patch_issues_escalate (Sample.T0 + 2) (Some Sample.employee) 1
      None escalated in
  let verified := Sample.store1_verified in
  let late :=
    Routes.patch_issues_escalate (Sample.T0 + 4) (Some Sample.employee) 1
      None verified in
  errorKind again.1 = Some AlreadyEscalated
  ∧ MemStorage.activitiesMap again.2 = MemStorage.activitiesMap escalated
  ∧ errorKind late.1 = Some InvalidTransition
  ∧ MemStorage.activitiesMap late.2 = MemStorage.activitiesMap verified.
Proof.
  intros escalated again verified late.
  assert (He : MemStorage.issuesMap escalated !! 1
               = Some (escalation (Sample.T0 + 1) Sample.issue1))
    by (vm_compute; reflexivity).
  assert (Hv : MemStorage.issuesMap verified !! 1
               = Some (statusUpdate (Sample.T0 + 3) IssueStatus.VERIFIED
                         Sample.issue1))
    by (vm_compute; reflexivity).
  destruct (C4_reporter_escalation_refused (Sample.T0 + 2) Sample.employee 1
              None escalated _ He eq_refl eq_refl) as [Hagain _].
  destruct (C4_reporter_escalation_refused (Sample.T0 + 4) Sample.employee 1
              None verified _ Hv eq_refl eq_refl) as [_ Hlate].
  destruct (Hagain eq_refl) as [Ha1 Ha2].
  destruct (Hlate eq_refl (or_introl eq_refl)) as [Hl1 Hl2].
  split; [exact Ha1|].
  split; [unfold again; rewrite Ha2; apply refreshed_activitiesMap|].
  split; [exact Hl1|].
  unfold late. rewrite Hl2. apply refreshed_activitiesMap.
Defined.

(** C4 fails for staff and admin: their branches check neither the flag
    nor the status.  An admin's second escalation of issue 1 succeeds
    and records a second activity; the escalation of the verified issue
    1 by staff of its department succeeds and takes the issue out of
    [verified]. *)
Lemma C4_counterexample_admin_and_staff :
  let escalated :=
    (Routes.patch_issues_escalate (Sample.T0 + 1) (Some Sample.admin) 1
       None Sample.store1).2 in
  let again :=
    Routes.patch_issues_escalate (Sample.T0 + 2) (Some Sample.admin) 1
      None escalated in
  let verified := Sample.store1_verified in
  let late :=
    Routes.patch_issues_escalate (Sample.T0 + 4) (Some Sample.itstaff) 1
      None verified in
  (Issue.isEscalated <$> MemStorage.issuesMap escalated !! 1 = Some true
   ∧ succeeded again.1
   ∧ errorKind again.1 ≠ Some AlreadyEscalated
   ∧ size (MemStorage.activitiesMap again.2)
     = S (size (MemStorage.activitiesMap escalated)))
  ∧ (Issue.status <$> MemStorage.issuesMap verified !! 1
     = Some IssueStatus.VERIFIED
     ∧ succeeded late.1
     ∧ errorKind late.1 ≠ Some InvalidTransition
     ∧ Issue.status <$> MemStorage.issuesMap late.2 !! 1
       = Some IssueStatus.ESCALATED).
Proof.
  intros escalated again verified late. split.
  - split; [vm_compute; reflexivity|].
    split; [split; [vm_compute; reflexivity|eexists; vm_compute; reflexivity]|].
    split; [vm_compute; discriminate|vm_compute; reflexivity].
  - split; [vm_compute; reflexivity|].
    split; [split; [vm_compute; reflexivity|eexists; vm_compute; reflexivity]|].
    split; [vm_compute; discriminate|vm_compute; reflexivity].
Qed.

(** C7 fails: the department branch of the status route has no case for
    pending to in_progress.  Staff of the IT department have put the IT
    issue 1 on hold and ask to resume it; the route answers 400 and the
    issue stays pending. *)
Theorem C7_department_pending_to_in_progress_refused :
  let pending := Sample.store1_pending in
  let reply :=
    Routes.patch_issues_status (Sample.T0 + 3) (Some Sample.itstaff) 1
      IssueStatus.IN_PROGRESS pending in
  User.role Sample.itstaff = UserRole.DEPARTMENT
  ∧ Issue.department <$> MemStorage.issuesMap pending !! 1
    = Some (User.department Sample.itstaff)
  ∧ Issue.status <$> MemStorage.issuesMap pending !! 1
    = Some IssueStatus.PENDING
  ∧ edge IssueStatus.PENDING IssueStatus.IN_PROGRESS
  ∧ reply.1 = Routes.fail 400 "Invalid status transition"
  ∧ Issue.status <$> MemStorage.issuesMap reply.2 !! 1
    = Some IssueStatus.PENDING
  ∧ MemStorage.activitiesMap reply.2 = MemStorage.activitiesMap pending.
Proof.
  intros pending reply.
  split; [reflexivity|].
  split; [vm_compute; reflexivity|].
  split; [vm_compute; reflexivity|].
  split; [unfold edge, edges; set_solver|].
  split; [vm_compute; reflexivity|].
  split; vm_compute; reflexivity.
Qed.

(** ** The reassignment route *)

Lemma department_of_value (department : Department.t) :
  Routes.department_of (Department.value department) = Some department.
Proof. by destruct department. Qed.

Lemma updateIssueDepartment_found (now id : Z) (department : Department.t)
  (s : MemStorage.t) (issue : Issue.t) :
  MemStorage.issuesMap s !! id = Some issue →
  MemStorage.updateIssueDepartment now id department s
  = (Some (reassignment now department issue),
     MemStorage.setIssue id (reassignment now department issue) s).
Proof.
  intros H. unfold MemStorage.updateIssueDepartment, MemStorage.bind.
  rewrite (getIssue_found _ _ _ _ H). unfold refreshed.
  rewrite setIssue_setIssue. reflexivity.
Qed.

(** What the reassignment route does for an admin, a department of the
    enumeration and an issue that is found. *)
Lemma patch_issues_reassign_department_found (now : Z) (user : User.t)
  (id : Z) (department : Department.t) (s : MemStorage.t)
  (issue : Issue.t) :
  User.role user = UserRole.ADMIN →
  MemStorage.issuesMap s !! id = Some issue →
  Routes.patch_issues_reassign_department now (Some user) id
    (Department.value department) s
  = if decide (Issue.department issue = department) then
      (Routes.fail 400 "Issue is already assigned to this department",
       refreshed now id issue s)
    else
      (Routes.json (Some (reassignment now department issue)),
       (MemStorage.createActivity now
          (InsertActivity.mk id (User.id user) "department_changed"
             (DetailsDepartment (Issue.department issue) department))
          (MemStorage.setIssue id (reassignment now department issue) s)).2).
Proof.
  intros Hrole H.
  unfold Routes.patch_issues_reassign_department, Routes.requireRole.
  rewrite Hrole. rewrite decide_True by set_solver.
  rewrite department_of_value. unfold MemStorage.bind.
  rewrite (getIssue_found _ _ _ _ H).
  change (Issue.department (recalculated now issue))
    with (Issue.department issue).
  destruct (decide (Issue.department issue = department)) as [Heq|Hne];
    [reflexivity|].
  rewrite (updateIssueDepartment_found _ _ _ _ _ (refreshed_lookup _ _ _ _)).
  unfold refreshed. rewrite setIssue_setIssue. reflexivity.
Qed.

(** C9: an admin's reassignment of a stored issue to a department of the
    enumeration other than its own succeeds; the issue is stored with
    the new department and with the status and the escalation flag it
    had; one [department_changed] activity is recorded, with the old and
    the new department. *)
Theorem C9_reassignDepartment (now : Z) (user : User.t) (id : Z)
  (newDepartment : Department.t) (s : MemStorage.t) (issue : Issue.t) :
  User.role user = UserRole.ADMIN →
  MemStorage.issuesMap s !! id = Some issue →
  newDepartment ≠ Issue.department issue →
  let reply :=
    Routes.patch_issues_reassign_department now (Some user) id
      (Department.value newDepartment) s in
  ∃ updated : Issue.t,
    reply.1 = Routes.json (Some updated)
    ∧ MemStorage.issuesMap reply.2 !! id = Some updated
    ∧ Issue.department updated = newDepartment
    ∧ Issue.status updated = Issue.status issue
    ∧ Issue.isEscalated updated = Issue.isEscalated issue
    ∧ MemStorage.activitiesMap reply.2
      = <[MemStorage.activityIdCounter s :=
            Activity.mk (MemStorage.activityIdCounter s) id (User.id user)
              "department_changed"
              (DetailsDepartment (Issue.department issue) newDepartment)
              now]> (MemStorage.activitiesMap s).
Proof.
  intros Hrole H Hne reply. unfold reply.
  rewrite (patch_issues_reassign_department_found _ _ _ _ _ _ Hrole H).
  rewrite decide_False by done.
  exists (reassignment now newDepartment issue). cbn.
  split; [done|]. split; [apply lookup_insert_eq|done].
Qed.

(** C9 at work: the admin moves the escalated issue 1 from IT to HR. *)
Lemma C9_witness :
  let escalated :=
    (Routes.patch_issues_escalate (Sample.T0 + 1) (Some Sample.admin) 1
       None Sample.store1).2 in
  let reply :=
    Routes.patch_issues_reassign_department (Sample.T0 + 2)
      (Some Sample.admin) 1 (Department.value Department.HR) escalated in
  User.role Sample.admin = UserRole.ADMIN
  ∧ Issue.department <$> MemStorage.issuesMap escalated !! 1
    = Some Department.IT
  ∧ Issue.department <$> MemStorage.issuesMap reply.2 !! 1
    = Some Department.HR
  ∧ Issue.status <$> MemStorage.issuesMap reply.2 !! 1
    = Some IssueStatus.ESCALATED
  ∧ Issue.isEscalated <$> MemStorage.issuesMap reply.2 !! 1 = Some true
  ∧ Activity.details <$> MemStorage.activitiesMap reply.2 !! 3
    = Some (DetailsDepartment Department.IT Department.HR).
Proof.
  intros escalated reply.
  assert (He : MemStorage.issuesMap escalated !! 1
               = Some (escalation (Sample.T0 + 1) Sample.issue1))
    by (vm_compute; reflexivity).
  split; [reflexivity|]. split; [by rewrite He|].
  destruct (C9_reassignDepartment (Sample.T0 + 2) Sample.admin 1
              Department.HR escalated _ eq_refl He)
    as (updated & _ & Hlook & Hdep & Hstatus & Hesc & Hact);
    [discriminate|].
  unfold reply. cbv zeta in Hlook, Hact.
  rewrite Hlook, Hact. cbn [fmap option_fmap option_map].
  rewrite Hdep, Hstatus, Hesc.
  split; [done|]. split; [done|]. split; [done|].
  vm_compute. reflexivity.
Defined.

(** ** The store's keys *)

Lemma keyed_setIssue (id : Z) (issue : Issue.t) (s : MemStorage.t) :
  keyed s → Issue.id issue = id → keyed (MemStorage.setIssue id issue s).
Proof.
  intros Hs Hid k i. cbn. intros Hk.
  apply lookup_insert_Some in Hk as [[<- <-]|[_ Hk]]; [done|by apply Hs].
Qed.

Lemma keyed_new (now : Z) : keyed (MemStorage.new now).
Proof. intros k i. cbn. by rewrite lookup_empty. Qed.

Lemma keyed_createIssue (LocalTZA now : Z) (insertIssue : InsertIssue.t)
  (s : MemStorage.t) :
  keyed s → keyed (MemStorage.createIssue LocalTZA now insertIssue s).2.
Proof.
  intros Hs k i. cbn. intros Hk.
  apply lookup_insert_Some in Hk as [[<- <-]|[_ Hk]]; [done|by apply Hs].
Qed.

Lemma keyed_updateIssueStatus (now id : Z) (status : IssueStatus.t)
  (s : MemStorage.t) :
  keyed s → keyed (MemStorage.updateIssueStatus now id status s).2.
Proof.
  intros Hs. destruct (MemStorage.issuesMap s !! id) as [issue|] eqn:H.
  - rewrite (updateIssueStatus_found _ _ _ _ _ H). cbn [snd].
    apply keyed_setIssue; [done|]. change (Issue.id issue = id).
    by apply Hs.
  - unfold MemStorage.updateIssueStatus, MemStorage.bind.
    by rewrite (getIssue_missing _ _ _ H).
Qed.

(** ** The analytics *)

Lemma refreshIssue_spec (now : Z) (s : MemStorage.t) (issue : Issue.t) :
  MemStorage.refreshIssue now s issue
  = MemStorage.setIssue (Issue.id issue) (recalculated now issue) s
  ∨ (MemStorage.refreshIssue now s issue = s
     ∧ recalculated now issue = issue).
Proof.
  unfold MemStorage.refreshIssue, recalculated.
  destruct (decide _) as [Hne|Heq]; [by left|right].
  split; [done|]. apply dec_stable in Heq. rewrite <- Heq. by destruct issue.
Qed.

(** The loop of [getAllIssues] over issues that are stored under their
    ids: each of them ends up recalculated, every other key is left. *)
Lemma refreshIssue_foldl (now : Z) (l : list Issue.t) :
  NoDup (Issue.id <$> l) →
  ∀ s : MemStorage.t,
    (∀ issue, issue ∈ l →
       MemStorage.issuesMap s !! Issue.id issue = Some issue) →
    let s' := foldl (MemStorage.refreshIssue now) s l in
    (∀ issue, issue ∈ l →
       MemStorage.issuesMap s' !! Issue.id issue
       = Some (recalculated now issue))
    ∧ (∀ k, k ∉ Issue.id <$> l →
         MemStorage.issuesMap s' !! k = MemStorage.issuesMap s !! k)
    ∧ MemStorage.activitiesMap s' = MemStorage.activitiesMap s.
Proof.
  induction l as [|a l IH]; intros Hnd s Hs; cbn.
  - split; [intros issue Hin; by apply elem_of_nil in Hin|done].
  - apply NoDup_cons in Hnd as [Ha Hnd].
    set (s1 := MemStorage.refreshIssue now s a).
    assert (Hs1 : MemStorage.issuesMap s1 !! Issue.id a
                  = Some (recalculated now a)
                  ∧ (∀ k, k ≠ Issue.id a →
                       MemStorage.issuesMap s1 !! k
                       = MemStorage.issuesMap s !! k)
                  ∧ MemStorage.activitiesMap s1 = MemStorage.activitiesMap s).
    { unfold s1.
      destruct (refreshIssue_spec now s a) as [->|[-> Hsame]].
      - split; [apply setIssue_lookup|].
        split; [|done]. intros k Hk. by apply setIssue_lookup_ne.
      - split; [|done]. rewrite Hsame. apply Hs. by left. }
    destruct Hs1 as (Hs1a & Hs1o & Hs1act).
    destruct (IH Hnd s1) as (IHin & IHout & IHact).
    { intros issue Hin. rewrite Hs1o.
      - apply Hs. by right.
      - intros Heq. apply Ha. rewrite <- Heq.
        by apply list_elem_of_fmap_2. }
    split; [|split].
    + intros issue Hin. apply elem_of_cons in Hin as [->|Hin].
      * by rewrite IHout.
      * by apply IHin.
    + intros k Hk. apply not_elem_of_cons in Hk as [Hka Hkl].
      rewrite IHout by done. by apply Hs1o.
    + by rewrite IHact.
Qed.

Lemma issueValues_ids (s : MemStorage.t) :
  keyed s →
  Issue.id <$> MemStorage.issueValues s
  = (map_to_list (MemStorage.issuesMap s)).*1.
Proof.
  intros Hs. unfold MemStorage.issueValues.
  assert (H : ∀ l : list (Z * Issue.t),
             (∀ k i, (k, i) ∈ l → Issue.id i = k) →
             Issue.id <$> l.*2 = l.*1).
  { induction l as [|[k i] l IH]; intros Hl; [done|]. cbn. f_equal.
    - apply Hl. by left.
    - apply IH. intros k' i' Hin. apply Hl. by right. }
  apply H. intros k i Hin. apply Hs. by apply elem_of_map_to_list.
Qed.

Lemma elem_of_issueValues (s : MemStorage.t) (issue : Issue.t) :
  issue ∈ MemStorage.issueValues s
  ↔ ∃ k, MemStorage.issuesMap s !! k = Some issue.
Proof.
  unfold MemStorage.issueValues. rewrite list_elem_of_fmap. split.
  - intros ([k i] & -> & Hin). exists k. by apply elem_of_map_to_list.
  - intros [k Hk]. exists (k, issue). split; [done|].
    by apply elem_of_map_to_list.
Qed.

(** [getAllIssues] recalculates the SLA status of every stored issue
    and answers the stored issues. *)
Lemma getAllIssues_spec (now : Z) (s : MemStorage.t) :
  keyed s →
  let all := MemStorage.getAllIssues now s in
  MemStorage.issuesMap all.2 = recalculated now <$> MemStorage.issuesMap s
  ∧ all.1 = recalculated now <$> MemStorage.issueValues s
  ∧ MemStorage.activitiesMap all.2 = MemStorage.activitiesMap s.
Proof.
  intros Hs all.
  destruct (refreshIssue_foldl now (MemStorage.issueValues s)) with (s := s)
    as (Hin & Hout & Hact).
  { rewrite issueValues_ids by done. apply NoDup_fst_map_to_list. }
  { intros issue Hi. apply elem_of_issueValues in Hi as [k Hk].
    by rewrite (Hs _ _ Hk). }
  cbv zeta in Hin, Hout, Hact.
  assert (Hmap : MemStorage.issuesMap all.2
                 = recalculated now <$> MemStorage.issuesMap s).
  { apply map_eq. intros k. rewrite lookup_fmap. cbn.
    destruct (MemStorage.issuesMap s !! k) as [issue|] eqn:Hk; cbn.
    - rewrite <- (Hs _ _ Hk) at 1.
      apply Hin, elem_of_issueValues. by exists k.
    - rewrite Hout; [done|]. intros Hc.
      apply list_elem_of_fmap in Hc as (issue & -> & Hi).
      apply elem_of_issueValues in Hi as [k' Hk'].
      rewrite (Hs _ _ Hk') in Hk. congruence. }
  split; [exact Hmap|]. split; [|exact Hact].
  change all.1 with (MemStorage.issueValues all.2).
  unfold MemStorage.issueValues. rewrite Hmap, map_to_list_fmap.
  rewrite <- !list_fmap_compose. done.
Qed.

Lemma IssueStatus_value_inj : Inj (=) (=) IssueStatus.value.
Proof. intros a b H. by destruct a, b. Qed.

Lemma counted_S (start : option Number.t) (n : nat) :
  counted start (S n)
  = Some (Number.addU (counted start n) (Number.ofZ 1)).
Proof. reflexivity. Qed.

Lemma counted_step (start : option Number.t) (n : nat) :
  counted (Some (Number.addU start (Number.ofZ 1))) n = counted start (S n).
Proof.
  induction n as [|n IH]; [done|].
  by rewrite counted_S, IH, <- counted_S.
Qed.

Lemma countIssue_foldl (l : list Issue.t) (status : IssueStatus.t) :
  ∀ result : gmap string Number.t,
    foldl MemStorage.countIssue result l !! IssueStatus.value status
    = counted (result !! IssueStatus.value status)
        (length (filter (λ issue, Issue.status issue = status) l)).
Proof.
  induction l as [|a l IH]; intros result; [done|]. cbn [foldl].
  rewrite IH. unfold MemStorage.countIssue at 1.
  destruct (decide (Issue.status a = status)) as [<-|Hne].
  - rewrite filter_cons_True by done. rewrite lookup_insert_eq.
    cbn [length]. apply counted_step.
  - rewrite filter_cons_False by done. rewrite lookup_insert_ne; [done|].
    intros Heq. by apply IssueStatus_value_inj in Heq.
Qed.

Lemma counted_zero (n : nat) :
  counted (Some (Number.ofZ 0)) n = Some (Number.ofZ (Z.of_nat n)).
Proof.
  induction n as [|n IH]; [done|].
  rewrite counted_S, IH, Nat2Z.inj_succ.
  unfold Number.ofZ, inject_Z. cbn [Number.addU Number.add].
  unfold Qplus. cbn [Qnum Qden]. do 3 f_equal. lia.
Qed.

Lemma counted_missing (n : nat) :
  counted None n = if decide (n = 0%nat) then None else Some Number.NaN.
Proof.
  induction n as [|n IH]; [done|].
  rewrite counted_S, IH. by destruct n.
Qed.

Lemma statusCount_recalculated (now : Z) (status : IssueStatus.t)
  (l : list Issue.t) :
  length (filter (λ issue, Issue.status issue = status)
            (recalculated now <$> l))
  = length (filter (λ issue, Issue.status issue = status) l).
Proof.
  induction l as [|a l IH]; [done|]. cbn [fmap list_fmap].
  destruct (decide (Issue.status a = status)) as [Heq|Hne].
  - rewrite !filter_cons_True by done. cbn. by rewrite IH.
  - by rewrite !filter_cons_False.
Qed.

(** The whole answer of [getIssueCountsByStatus] on a store whose keys
    are the issues' ids: the right count for each of the seven statuses
    of the initial object, and for [pending] no entry or NaN. *)
Lemma getIssueCountsByStatus_spec (now : Z) (s : MemStorage.t) :
  keyed s →
  let counts := (MemStorage.getIssueCountsByStatus now s).1 in
  (∀ status, status ≠ IssueStatus.PENDING →
     counts !! IssueStatus.value status
     = Some (Number.ofZ (statusCount s status)))
  ∧ counts !! IssueStatus.value IssueStatus.PENDING
    = if decide (statusCount s IssueStatus.PENDING = 0) then None
      else Some Number.NaN.
Proof.
  intros Hs counts.
  destruct (getAllIssues_spec now s Hs) as (_ & Hall & _).
  assert (Hc : ∀ status,
             counts !! IssueStatus.value status
             = counted (MemStorage.zeroCounts !! IssueStatus.value status)
                 (Z.to_nat (statusCount s status))).
  { intros status. unfold counts, MemStorage.getIssueCountsByStatus,
      MemStorage.bind.
    destruct (MemStorage.getAllIssues now s) as [issues s'] eqn:Hrun.
    cbn in Hall. subst issues. cbn.
    rewrite countIssue_foldl, statusCount_recalculated.
    unfold statusCount. by rewrite Nat2Z.id. }
  split.
  - intros status Hne. rewrite Hc.
    replace (MemStorage.zeroCounts !! IssueStatus.value status)
      with (Some (Number.ofZ 0)) by (by destruct status).
    rewrite counted_zero. unfold statusCount. by rewrite Nat2Z.id.
  - rewrite Hc.
    replace (MemStorage.zeroCounts
               !! IssueStatus.value IssueStatus.PENDING)
      with (@None Number.t) by done.
    rewrite counted_missing. unfold statusCount. rewrite Nat2Z.id.
    repeat case_decide; try done; lia.
Qed.

(** C8 fails on the entry for [pending]: the object that
    [getIssueCountsByStatus] starts from has no such property.  With no
    pending issue stored the answer has no entry for it; with one, the
    entry is NaN. *)
Theorem C8_no_count_for_pending :
  let none := (MemStorage.getIssueCountsByStatus Sample.T0 Sample.store1).1 in
  let one :=
    (MemStorage.getIssueCountsByStatus Sample.T0 Sample.store1_pending).1 in
  statusCount Sample.store1 IssueStatus.PENDING = 0
  ∧ none !! IssueStatus.value IssueStatus.PENDING = None
  ∧ none !! IssueStatus.value IssueStatus.OPEN = Some (Number.ofZ 1)
  ∧ statusCount Sample.store1_pending IssueStatus.PENDING = 1
  ∧ one !! IssueStatus.value IssueStatus.PENDING = Some Number.NaN
  ∧ one !! IssueStatus.value IssueStatus.OPEN = Some (Number.ofZ 0).
Proof. vm_compute. done. Qed.

(** ** What the store keeps *)

Lemma bind_run {A B : Type} (m : MemStorage.M A) (f : A → MemStorage.M B)
  (s : MemStorage.t) :
  MemStorage.bind m f s = f (m s).1 (m s).2.
Proof. unfold MemStorage.bind. by destruct (m s). Qed.

Lemma hoare_ret {A : Type} (P : MemStorage.t → Prop) (a : A)
  (Q : A → MemStorage.t → Prop) :
  (∀ s, P s → Q a s) → hoare P (MemStorage.ret a) Q.
Proof. intros H s Hs. by apply H. Qed.

Lemma hoare_bind {A B : Type} (P : MemStorage.t → Prop)
  (R : A → MemStorage.t → Prop) (Q : B → MemStorage.t → Prop)
  (m : MemStorage.M A) (f : A → MemStorage.M B) :
  hoare P m R → (∀ a, hoare (R a) (f a) Q) → hoare P (MemStorage.bind m f) Q.
Proof.
  intros Hm Hf s Hs. rewrite bind_run. apply Hf. by apply Hm.
Qed.

Lemma hoare_post {A : Type} (P : MemStorage.t → Prop)
  (Q Q' : A → MemStorage.t → Prop) (m : MemStorage.M A) :
  hoare P m Q → (∀ a s, Q a s → Q' a s) → hoare P m Q'.
Proof. intros Hm HQ s Hs. by apply HQ, Hm. Qed.

Lemma issue_kept_refl (issue : Issue.t) : issue_kept issue issue.
Proof. by repeat split. Qed.

Lemma issue_kept_trans (a b c : Issue.t) :
  issue_kept a b → issue_kept b c → issue_kept a c.
Proof.
  intros (H1 & H2 & H3 & H4 & H5 & H6 & H7 & H8 & H9)
         (G1 & G2 & G3 & G4 & G5 & G6 & G7 & G8 & G9).
  repeat split; try congruence; [by auto|by etrans].
Qed.

Lemma evolves_refl (s : MemStorage.t) : evolves s s.
Proof.
  split; [|done]. intros k issue H. exists issue.
  split; [done|apply issue_kept_refl].
Qed.

Lemma evolves_trans (a b c : MemStorage.t) :
  evolves a b → evolves b c → evolves a c.
Proof.
  intros (Hi & Ha & Hu) (Hi' & Ha' & Hu'). split; [|split; by etrans].
  intros k issue H.
  destruct (Hi _ _ H) as (issue' & H' & Hk).
  destruct (Hi' _ _ H') as (issue'' & H'' & Hk').
  exists issue''. split; [done|]. by eapply issue_kept_trans.
Qed.

Lemma after_refl (s : MemStorage.t) : consistent s → after s s.
Proof. intros H. split; [done|apply evolves_refl]. Qed.

Lemma consistent_keyed (s : MemStorage.t) : consistent s → keyed s.
Proof. intros (_ & Hi & _) k issue H. by apply Hi. Qed.

Lemma consistent_new (now : Z) : consistent (MemStorage.new now).
Proof.
  split; [|split].
  - intros k user. cbn. intros H.
    repeat (apply lookup_insert_Some in H as [[<- <-]|[_ H]]; [done|]).
    by rewrite lookup_empty in H.
  - intros k issue. cbn. by rewrite lookup_empty.
  - intros k activity. cbn. by rewrite lookup_empty.
Qed.

(** Storing an issue back under its key, with what it keeps. *)
Lemma after_setIssue (s0 s : MemStorage.t) (id : Z) (issue updated : Issue.t) :
  after s0 s →
  MemStorage.issuesMap s !! id = Some issue →
  issue_kept issue updated →
  after s0 (MemStorage.setIssue id updated s).
Proof.
  intros [(Hu & Hi & Ha) (Ei & Ea & Eu)] Hl Hk. split; [split; [|split]|].
  - done.
  - intros k i. cbn. intros H.
    apply lookup_insert_Some in H as [[<- <-]|[_ H]]; [|by apply Hi].
    destruct (Hi _ _ Hl) as [Hid Hlt]. split; [|done].
    destruct Hk as (-> & _). done.
  - done.
  - split; [|done]. intros k i H.
    destruct (Ei _ _ H) as (i' & H' & Hk').
    destruct (decide (id = k)) as [->|Hne].
    + exists updated. split; [apply setIssue_lookup|].
      apply (issue_kept_trans _ i'); [done|]. congruence.
    + exists i'. split; [|done]. by rewrite setIssue_lookup_ne.
Qed.

Lemma after_createActivity (s0 s : MemStorage.t) (now : Z)
  (insertActivity : InsertActivity.t) :
  after s0 s → after s0 (MemStorage.createActivity now insertActivity s).2.
Proof.
  intros [(Hu & Hi & Ha) (Ei & Ea & Eu)]. cbn.
  assert (Hfresh : MemStorage.activitiesMap s
                   !! MemStorage.activityIdCounter s = None).
  { destruct (MemStorage.activitiesMap s !! MemStorage.activityIdCounter s)
      as [a|] eqn:H; [|done].
    destruct (Ha _ _ H). lia. }
  split; [split; [|split]|split; [|split]]; cbn; try done.
  - intros k a H.
    apply lookup_insert_Some in H as [[<- <-]|[_ H]]; cbn; [split; [done|lia]|].
    destruct (Ha _ _ H). split; [done|lia].
  - etrans; [exact Ea|]. by apply insert_subseteq.
Qed.

Lemma after_createIssue (s0 s : MemStorage.t) (LocalTZA now : Z)
  (insertIssue : InsertIssue.t) :
  after s0 s →
  after s0 (MemStorage.createIssue LocalTZA now insertIssue s).2.
Proof.
  intros [(Hu & Hi & Ha) (Ei & Ea & Eu)].
  assert (Hfresh : MemStorage.issuesMap s
                   !! MemStorage.issueIdCounter s = None).
  { destruct (MemStorage.issuesMap s !! MemStorage.issueIdCounter s)
      as [i|] eqn:H; [|done].
    destruct (Hi _ _ H). lia. }
  assert (Hfresh' : MemStorage.activitiesMap s
                    !! MemStorage.activityIdCounter s = None).
  { destruct (MemStorage.activitiesMap s !! MemStorage.activityIdCounter s)
      as [a|] eqn:H; [|done].
    destruct (Ha _ _ H). lia. }
  split; [split; [|split]|split; [|split]]; cbn; try done.
  - intros k i H.
    apply lookup_insert_Some in H as [[<- <-]|[_ H]]; cbn; [split; [done|lia]|].
    destruct (Hi _ _ H). split; [done|lia].
  - intros k a H.
    apply lookup_insert_Some in H as [[<- <-]|[_ H]]; cbn; [split; [done|lia]|].
    destruct (Ha _ _ H). split; [done|lia].
  - intros k i H. destruct (Ei _ _ H) as (i' & H' & Hk).
    exists i'. split; [|done]. rewrite lookup_insert_ne; [done|].
    intros <-. congruence.
  - etrans; [exact Ea|]. by apply insert_subseteq.
Qed.

Lemma hoare_getIssue (s0 : MemStorage.t) (now id : Z) :
  hoare (after s0) (MemStorage.getIssue now id)
    (λ result s,
       after s0 s
       ∧ ∀ issue, result = Some issue →
           MemStorage.issuesMap s !! id = Some issue).
Proof.
  intros s Hs. unfold MemStorage.getIssue.
  destruct (MemStorage.issuesMap s !! id) as [issue|] eqn:H; cbn [fst snd].
  - split.
    + apply (after_setIssue _ _ _ issue); [done|done|by repeat split].
    + intros i [= <-]. apply setIssue_lookup.
  - split; [done|]. by intros i.
Qed.

(** The loop of [getAllIssues] touches nothing but the issues. *)
Lemma refreshIssue_foldl_frame (now : Z) (l : list Issue.t) :
  ∀ s : MemStorage.t,
    let s' := foldl (MemStorage.refreshIssue now) s l in
    MemStorage.usersMap s' = MemStorage.usersMap s
    ∧ MemStorage.userIdCounter s' = MemStorage.userIdCounter s
    ∧ MemStorage.issueIdCounter s' = MemStorage.issueIdCounter s
    ∧ MemStorage.activityIdCounter s' = MemStorage.activityIdCounter s.
Proof.
  induction l as [|a l IH]; intros s; [done|]. cbn [foldl].
  destruct (IH (MemStorage.refreshIssue now s a)) as (H1 & H2 & H3 & H4).
  cbv zeta. rewrite H1, H2, H3, H4.
  unfold MemStorage.refreshIssue. by destruct (decide _).
Qed.

Lemma hoare_getAllIssues (s0 : MemStorage.t) (now : Z) :
  hoare (after s0) (MemStorage.getAllIssues now)
    (λ issues s, after s0 s ∧ issues = MemStorage.issueValues s).
Proof.
  intros s [Hc He]. split; [|done].
  destruct (getAllIssues_spec now s (consistent_keyed _ Hc))
    as (Hmap & _ & Hact).
  destruct (refreshIssue_foldl_frame now (MemStorage.issueValues s) s)
    as (F1 & F2 & F3 & F4).
  cbv zeta in Hmap, Hact, F1, F2, F3, F4.
  change (MemStorage.getAllIssues now s).2
    with (foldl (MemStorage.refreshIssue now) s (MemStorage.issueValues s))
    in *.
  set (s' := foldl (MemStorage.refreshIssue now) s (MemStorage.issueValues s))
    in *.
  destruct Hc as (Hu & Hi & Ha). split; [split; [|split]|].
  - rewrite F1, F2. done.
  - intros k i. rewrite Hmap, lookup_fmap, F3. intros H.
    destruct (MemStorage.issuesMap s !! k) as [j|] eqn:Hj; [|done].
    injection H as <-. destruct (Hi _ _ Hj) as [Hid Hlt].
    split; [exact Hid|exact Hlt].
  - rewrite Hact, F4. done.
  - apply (evolves_trans _ s); [done|]. split; [|split].
    + intros k i H. exists (recalculated now i).
      split; [|by repeat split]. by rewrite Hmap, lookup_fmap, H.
    + by rewrite Hact.
    + by rewrite F1.
Qed.

Ltac kept := repeat split; try done; try reflexivity.

Ltac after_ret := apply hoare_ret; intros; tauto.

Lemma hoare_updateIssueStatus (s0 : MemStorage.t) (now id : Z)
  (status : IssueStatus.t) :
  hoare (after s0) (MemStorage.updateIssueStatus now id status)
    (λ _, after s0).
Proof.
  unfold MemStorage.updateIssueStatus.
  eapply hoare_bind; [apply hoare_getIssue|].
  intros [issue|]; [|after_ret].
  intros s [Ha Hl]. cbn [fst snd].
  apply (after_setIssue _ _ _ issue); [done|by apply Hl|kept].
Qed.

Lemma hoare_assignIssue (s0 : MemStorage.t) (now id assigneeId : Z) :
  hoare (after s0) (MemStorage.assignIssue now id assigneeId)
    (λ _, after s0).
Proof.
  unfold MemStorage.assignIssue.
  eapply hoare_bind; [apply hoare_getIssue|].
  intros [issue|]; [|after_ret].
  intros s [Ha Hl]. cbn [fst snd].
  apply (after_setIssue _ _ _ issue); [done|by apply Hl|kept].
Qed.

Lemma hoare_escalateIssue (s0 : MemStorage.t) (now id : Z) :
  hoare (after s0) (MemStorage.escalateIssue now id) (λ _, after s0).
Proof.
  unfold MemStorage.escalateIssue.
  eapply hoare_bind; [apply hoare_getIssue|].
  intros [issue|]; [|after_ret].
  intros s [Ha Hl]. cbn [fst snd].
  apply (after_setIssue _ _ _ issue); [done|by apply Hl|kept].
Qed.

Lemma hoare_addComment (s0 : MemStorage.t) (now : Z) (commentId : string)
  (issueId userId : Z) (text : string) :
  hoare (after s0) (MemStorage.addComment now commentId issueId userId text)
    (λ _, after s0).
Proof.
  unfold MemStorage.addComment.
  eapply hoare_bind; [apply hoare_getIssue|].
  intros issue.
  eapply (hoare_bind _
            (λ _ s, after s0 s
                    ∧ ∀ i, issue = Some i →
                        MemStorage.issuesMap s !! issueId = Some i)).
  { by intros s Hs. }
  intros user. destruct issue as [issue|]; [|after_ret].
  destruct user as [user|]; [|after_ret].
  intros s [Ha Hl].
  change (after s0
            (MemStorage.createActivity now
               (InsertActivity.mk issueId userId "commented"
                  (DetailsComment commentId))
               (MemStorage.setIssue issueId
                  (Issue.with_updatedAt now
                     (Issue.with_comments
                        (Issue.comments issue
                         ++ [Comment.mk commentId userId (User.fullName user)
                               text now]) issue)) s)).2).
  apply after_createActivity.
  apply (after_setIssue _ _ _ issue); [done|by apply Hl|].
  kept. by apply prefix_app_r.
Qed.

Lemma hoare_createIssue (s0 : MemStorage.t) (LocalTZA now : Z)
  (insertIssue : InsertIssue.t) :
  hoare (after s0) (MemStorage.createIssue LocalTZA now insertIssue)
    (λ _, after s0).
Proof. intros s Hs. by apply after_createIssue. Qed.

Lemma hoare_createActivity (s0 : MemStorage.t) (now : Z)
  (insertActivity : InsertActivity.t) :
  hoare (after s0) (MemStorage.createActivity now insertActivity)
    (λ _, after s0).
Proof. intros s Hs. by apply after_createActivity. Qed.

Lemma hoare_getAllIssues_after (s0 : MemStorage.t) (now : Z) :
  hoare (after s0) (MemStorage.getAllIssues now) (λ _, after s0).
Proof.
  eapply hoare_post; [apply hoare_getAllIssues|]. by intros a s [H _].
Qed.

(** A method that only filters or counts what [getAllIssues] answers. *)
Lemma hoare_query {B : Type} (s0 : MemStorage.t) (now : Z)
  (f : list Issue.t → B) :
  hoare (after s0)
    (MemStorage.bind (MemStorage.getAllIssues now)
       (λ issues, MemStorage.ret (f issues)))
    (λ _, after s0).
Proof.
  eapply hoare_bind; [apply hoare_getAllIssues_after|]. intros a. after_ret.
Qed.

Ltac after_role :=
  match goal with
  | |- hoare _ (Routes.requireRole _ ?u _) _ =>
      unfold Routes.requireRole; destruct u as [?user|]; [|after_ret];
      destruct (decide _); [|after_ret]
  | |- hoare _ (Routes.requireRoleFor _ ?u _) _ =>
      unfold Routes.requireRoleFor; destruct u as [?user|]; [|after_ret];
      destruct (decide _); [|after_ret]
  end.

Lemma hoare_post_issues (s0 : MemStorage.t) (LocalTZA now : Z)
  (user : option User.t) (body : InsertIssue.t) :
  hoare (after s0) (Routes.post_issues LocalTZA now user body)
    (λ _, after s0).
Proof.
  unfold Routes.post_issues. destruct user as [user|]; [|after_ret].
  eapply hoare_bind; [apply hoare_createIssue|]. intros a. after_ret.
Qed.

Lemma hoare_get_issues (s0 : MemStorage.t) (now : Z) (user : option User.t) :
  hoare (after s0) (Routes.get_issues now user) (λ _, after s0).
Proof.
  unfold Routes.get_issues. after_role.
  eapply hoare_bind; [apply hoare_getAllIssues_after|]. intros a. after_ret.
Qed.

Lemma hoare_get_issues_me (s0 : MemStorage.t) (now : Z)
  (user : option User.t) :
  hoare (after s0) (Routes.get_issues_me now user) (λ _, after s0).
Proof.
  unfold Routes.get_issues_me. destruct user as [user|]; [|after_ret].
  destruct (User.role user);
    (eapply hoare_bind;
     [first [apply hoare_query|apply hoare_getAllIssues_after]
     |intros a; after_ret]).
Qed.

Lemma hoare_get_issues_department (s0 : MemStorage.t) (now : Z)
  (user : option User.t) (department : string) :
  hoare (after s0) (Routes.get_issues_department now user department)
    (λ _, after s0).
Proof.
  unfold Routes.get_issues_department. after_role.
  eapply hoare_bind; [apply hoare_query|]. intros a. after_ret.
Qed.

Lemma hoare_get_issue (s0 : MemStorage.t) (now : Z) (user : option User.t)
  (id : Z) :
  hoare (after s0) (Routes.get_issue now user id) (λ _, after s0).
Proof.
  unfold Routes.get_issue. destruct user as [user|]; [|after_ret].
  eapply hoare_bind; [apply hoare_getIssue|].
  intros [issue|]; [|after_ret].
  destruct (Routes.read_refusal user issue); after_ret.
Qed.

Lemma hoare_patch_issues_status (s0 : MemStorage.t) (now : Z)
  (user : option User.t) (id : Z) (status : IssueStatus.t) :
  hoare (after s0) (Routes.patch_issues_status now user id status)
    (λ _, after s0).
Proof.
  unfold Routes.patch_issues_status. destruct user as [user|]; [|after_ret].
  eapply hoare_bind; [apply hoare_getIssue|].
  intros [issue|]; [|after_ret].
  destruct (Routes.status_refusal user issue status); [after_ret|].
  eapply (hoare_bind _ (λ _, after s0));
    [intros s [H _]; by apply hoare_updateIssueStatus|].
  intros a. eapply hoare_bind; [apply hoare_createActivity|].
  intros b. after_ret.
Qed.

Lemma hoare_patch_issues_assign (s0 : MemStorage.t) (now : Z)
  (user : option User.t) (id assigneeId : Z) :
  hoare (after s0) (Routes.patch_issues_assign now user id assigneeId)
    (λ _, after s0).
Proof.
  unfold Routes.patch_issues_assign. after_role.
  eapply hoare_bind; [apply hoare_getIssue|].
  intros [issue|]; [|after_ret].
  destruct (decide _); [after_ret|].
  eapply (hoare_bind _ (λ _, after s0));
    [intros s [H _]; by apply hoare_assignIssue|].
  intros a. eapply hoare_bind; [apply hoare_createActivity|].
  intros b. after_ret.
Qed.

Lemma hoare_patch_issues_escalate (s0 : MemStorage.t) (now : Z)
  (user : option User.t) (id : Z) (reason : option string) :
  hoare (after s0) (Routes.patch_issues_escalate now user id reason)
    (λ _, after s0).
Proof.
  unfold Routes.patch_issues_escalate. destruct user as [user|]; [|after_ret].
  eapply hoare_bind; [apply hoare_getIssue|].
  intros [issue|]; [|after_ret].
  destruct (Routes.escalate_refusal user issue); [after_ret|].
  eapply (hoare_bind _ (λ _, after s0));
    [intros s [H _]; by apply hoare_escalateIssue|].
  intros a. eapply hoare_bind; [apply hoare_createActivity|].
  intros b. after_ret.
Qed.

Lemma hoare_get_analytics (s0 : MemStorage.t) (now : Z)
  (user : option User.t) :
  hoare (after s0) (Routes.get_analytics now user) (λ _, after s0).
Proof.
  unfold Routes.get_analytics. after_role.
  eapply hoare_bind; [apply hoare_query|].
  intros [slaPerformance|]; [|after_ret].
  eapply hoare_bind; [apply hoare_query|]. intros counts.
  eapply hoare_bind; [apply hoare_query|]. intros escalated.
  after_ret.
Qed.

(** Serving a request from a consistent store leaves a consistent store
    that the first has evolved into. *)
Lemma serve_after (now : Z) (user : option User.t) (request : Request)
  (s : MemStorage.t) :
  consistent s → after s (serve now user request s).
Proof.
  intros Hc. apply after_refl in Hc.
  destruct request; cbn [serve].
  - by apply hoare_post_issues.
  - by apply hoare_get_issues.
  - by apply hoare_get_issues_me.
  - by apply hoare_get_issues_department.
  - by apply hoare_get_issue.
  - by apply hoare_patch_issues_status.
  - by apply hoare_patch_issues_assign.
  - by apply hoare_patch_issues_escalate.
  - by apply hoare_get_analytics.
Qed.

(** X1: every store that the server reaches is consistent: users, issues
    and activities are stored under their own ids, and the ids in use
    are below the counters that give the next ones. *)
Theorem X1_reachable_consistent (s : MemStorage.t) :
  reachable s → consistent s.
Proof.
  induction 1 as [now|now user request s Hr IH].
  - apply consistent_new.
  - by apply serve_after.
Qed.

Lemma consistent_store1 : consistent Sample.store1.
Proof.
  apply (after_createIssue (MemStorage.new Sample.T0)), after_refl,
    consistent_new.
Qed.

Lemma reachable_store1 : reachable Sample.store1.
Proof.
  change Sample.store1
    with (serve Sample.T0 (Some Sample.employee)
            (PostIssues Sample.LocalTZA (Sample.laptop "critical"))
            (MemStorage.new Sample.T0)).
  apply reachable_serve, reachable_new.
Qed.

(** X1 at work: the store with the employee's first issue is reached,
    and its issue 1 is stored under the id 1. *)
Lemma X1_witness :
  reachable Sample.store1
  ∧ ∀ issue, MemStorage.issuesMap Sample.store1 !! 1 = Some issue →
      Issue.id issue = 1.
Proof.
  split; [exact reachable_store1|].
  intros issue H.
  destruct (X1_reachable_consistent _ reachable_store1) as (_ & Hi & _).
  by apply (Hi 1 issue).
Defined.






(** X4: a request without an authenticated user changes nothing in the
    store, whatever it asks for. *)
Theorem X4_unauthenticated_changes_nothing (now : Z) (request : Request)
  (s : MemStorage.t) :
  serve now None request s = s.
Proof. by destruct request. Qed.

(** ** Creating an issue through the route *)





(** ** The SLA status over time *)

Lemma severity_cases (now : Z) (issue : Issue.t) :
  (∀ later, calculateSlaStatus later issue = calculateSlaStatus now issue
            ∧ severity (calculateSlaStatus now issue) = 0)
  ∨ ∃ dueBy,
      Issue.dueBy issue = Some dueBy ∧ ¬ terminal (Issue.status issue).
Proof.
  destruct (Issue.dueBy issue) as [dueBy|] eqn:Hd.
  - destruct (decide (terminal (Issue.status issue))) as [Ht|Ht].
    + left. intros later.
      by rewrite !(calculateSlaStatus_terminal _ _ _ Hd Ht).
    + right. by exists dueBy.
  - left. intros later. by rewrite !calculateSlaStatus_no_dueBy.
Qed.

(** X7: the SLA status of an issue never improves with time: from on
    track it can only become at risk or breached, from at risk only
    breached, and breached it stays. *)
Theorem X7_sla_status_never_improves (now later : Z) (issue : Issue.t) :
  now <= later →
  severity (calculateSlaStatus now issue)
  <= severity (calculateSlaStatus later issue).
Proof.
  intros Hle.
  destruct (severity_cases now issue) as [Hconst|(dueBy & Hd & Ht)].
  { destruct (Hconst later) as [-> _]. lia. }
  destruct (decide (later > dueBy)) as [Hlate|Hlate].
  { rewrite (calculateSlaStatus_breached later _ _ Hd Ht Hlate).
    destruct (calculateSlaStatus now issue); cbn; lia. }
  destruct (decide (dueBy = Issue.createdAt issue)) as [Heq|Hne].
  { rewrite Heq in Hd.
    rewrite (calculateSlaStatus_no_span now _ Hd Ht) by lia.
    rewrite (calculateSlaStatus_no_span later _ Hd Ht) by lia. lia. }
  rewrite (calculateSlaStatus_running now _ _ Hd Ht) by (lia || done).
  rewrite (calculateSlaStatus_running later _ _ Hd Ht) by (lia || done).
  destruct (Qle_bool (percentLeft now issue dueBy) 25) eqn:Hq;
    [|destruct (Qle_bool (percentLeft later issue dueBy) 25); cbn; lia].
  assert (Hq' : Qle_bool (percentLeft later issue dueBy) 25 = true);
    [|by rewrite Hq'].
  destruct (decide (Issue.createdAt issue < dueBy)) as [Hpos|Hneg].
  - apply percentLeft_quarter; [done|].
    apply percentLeft_quarter in Hq; [lia|done].
  - apply Qle_bool_iff. unfold percentLeft.
    set (a := dueBy - later). set (b := dueBy - Issue.createdAt issue).
    assert (Ha : 0 <= a) by (unfold a; lia).
    assert (Hb : b < 0) by (unfold b; lia). clearbody a b.
    destruct b as [|p|p]; try lia.
    unfold Qle, Qdiv, Qmult, Qinv, inject_Z. cbn.
    rewrite ?Pos.mul_1_r, ?Z.mul_1_r. lia.
Qed.

(** X7 at work on issue 1 between the third and the fifth hour. *)
Lemma X7_witness :
  severity (calculateSlaStatus (Sample.T0 + 3 * Date.msPerHour) Sample.issue1)
  <= severity
       (calculateSlaStatus (Sample.T0 + 5 * Date.msPerHour) Sample.issue1).
Proof.
  apply X7_sla_status_never_improves. vm_compute. discriminate.
Defined.

(** ** Reading one issue *)

(** X8: [GET /api/issues/:id] for an authenticated user: 404 and an
    untouched store when the id is not in use; otherwise the issue with
    its SLA status recalculated when the user may read it, 403 when not;
    in both cases the store is as the read left it. *)
Theorem X8_get_issue (now : Z) (user : User.t) (id : Z) (s : MemStorage.t) :
  Routes.get_issue now (Some user) id s
  = match MemStorage.issuesMap s !! id with
    | None => (Routes.fail 404 "Issue not found", s)
    | Some issue =>
        (if decide (may_read user issue)
         then Routes.json (Some (recalculated now issue))
         else Routes.fail 403 "Access forbidden",
         refreshed now id issue s)
    end.
Proof.
  unfold Routes.get_issue, MemStorage.bind.
  destruct (MemStorage.issuesMap s !! id) as [issue|] eqn:H.
  - rewrite (getIssue_found _ _ _ _ H).
    change (Routes.read_refusal user (recalculated now issue))
      with (Routes.read_refusal user issue).
    unfold Routes.read_refusal, may_read.
    destruct (User.role user) eqn:Hrole;
      repeat case_decide; try reflexivity; exfalso; intuition congruence.
  - by rewrite (getIssue_missing _ _ _ H).
Qed.

(** X9: reading an issue twice at the same time is reading it once: the
    second read answers the same issue and leaves the same store. *)
Theorem X9_getIssue_twice (now id : Z) (s : MemStorage.t) :
  MemStorage.getIssue now id (MemStorage.getIssue now id s).2
  = MemStorage.getIssue now id s.
Proof.
  destruct (MemStorage.issuesMap s !! id) as [issue|] eqn:H.
  - rewrite (getIssue_found _ _ _ _ H). cbn [snd].
    rewrite (getIssue_found _ _ _ _ (refreshed_lookup _ _ _ _)).
    unfold refreshed. by rewrite setIssue_setIssue.
  - rewrite (getIssue_missing _ _ _ H). cbn [snd].
    by rewrite (getIssue_missing _ _ _ H).
Qed.

(** ** Assigning an issue *)

Lemma assignIssue_found (now id assigneeId : Z) (s : MemStorage.t)
  (issue : Issue.t) :
  MemStorage.issuesMap s !! id = Some issue →
  MemStorage.assignIssue now id assigneeId s
  = (Some (assignment now assigneeId issue),
     MemStorage.setIssue id (assignment now assigneeId issue) s).
Proof.
  intros H. unfold MemStorage.assignIssue, MemStorage.bind.
  rewrite (getIssue_found _ _ _ _ H). unfold refreshed.
  rewrite setIssue_setIssue. reflexivity.
Qed.

(** What the assignment route does for an admin or for staff of the
    issue's department. *)
Lemma patch_issues_assign_found (now : Z) (user : User.t)
  (id assigneeId : Z) (s : MemStorage.t) (issue : Issue.t) :
  MemStorage.issuesMap s !! id = Some issue →
  User.role user = UserRole.ADMIN
  ∨ (User.role user = UserRole.DEPARTMENT
     ∧ Issue.department issue = User.department user) →
  Routes.patch_issues_assign now (Some user) id assigneeId s
  = (Routes.json (Some (assignment now assigneeId issue)),
     (MemStorage.createActivity now
        (InsertActivity.mk id (User.id user) "assigned"
           (DetailsAssignee assigneeId))
        (MemStorage.setIssue id (assignment now assigneeId issue) s)).2).
Proof.
  intros H Hok. unfold Routes.patch_issues_assign, Routes.requireRole.
  rewrite decide_True by (destruct Hok as [->|[-> _]]; repeat constructor).
  unfold MemStorage.bind.
  rewrite (getIssue_found _ _ _ _ H).
  rewrite decide_False
    by (intros [Hr Hd]; destruct Hok as [Ha|[_ He]];
        [congruence|by apply Hd]).
  rewrite (assignIssue_found _ _ _ _ _ (refreshed_lookup _ _ _ _)).
  unfold refreshed. rewrite setIssue_setIssue. reflexivity.
Qed.

(** X10: [PATCH /api/issues/:id/assign] on a stored issue.  An employee
    is refused before the issue is read, and the store is untouched;
    staff of another department are refused after the read.  An admin
    and staff of the issue's department succeed, also on a verified or
    closed issue and with any assignee id: the issue gets the assignee,
    an open issue becomes in progress and any other status stays, no
    other field but [updatedAt] and the cached SLA status changes, and
    one [assigned] activity is recorded. *)
Theorem X10_patch_issues_assign (now : Z) (user : User.t)
  (id assigneeId : Z) (s : MemStorage.t) (issue : Issue.t) :
  MemStorage.issuesMap s !! id = Some issue →
  let reply := Routes.patch_issues_assign now (Some user) id assigneeId s in
  let updated := assignment now assigneeId issue in
  (User.role user = UserRole.EMPLOYEE →
   reply = (Routes.fail 403 "Insufficient permissions", s))
  ∧ (User.role user = UserRole.DEPARTMENT →
     Issue.department issue ≠ User.department user →
     reply = (Routes.fail 403 "Access forbidden", refreshed now id issue s))
  ∧ (User.role user = UserRole.ADMIN
     ∨ (User.role user = UserRole.DEPARTMENT
        ∧ Issue.department issue = User.department user) →
     reply.1 = Routes.json (Some updated)
     ∧ MemStorage.issuesMap reply.2
       = <[id := updated]> (MemStorage.issuesMap s)
     ∧ MemStorage.activitiesMap reply.2
       = <[MemStorage.activityIdCounter s :=
             Activity.mk (MemStorage.activityIdCounter s) id (User.id user)
               "assigned" (DetailsAssignee assigneeId) now]>
           (MemStorage.activitiesMap s))
  ∧ Issue.assigneeId updated = Some assigneeId
  ∧ Issue.status updated
    = (if decide (Issue.status issue = IssueStatus.OPEN)
       then IssueStatus.IN_PROGRESS else Issue.status issue)
  ∧ Issue.department updated = Issue.department issue
  ∧ Issue.isEscalated updated = Issue.isEscalated issue
  ∧ issue_kept issue updated
  ∧ Issue.comments updated = Issue.comments issue.
Proof.
  intros H reply updated.
  split; [|split; [|split; [|by kept]]].
  - intros Hrole. unfold reply, Routes.patch_issues_assign,
      Routes.requireRole. rewrite Hrole.
    rewrite decide_False; [done|].
    intros Hin. repeat (apply elem_of_cons in Hin as [Hin|Hin];
                        [discriminate|]).
    by apply elem_of_nil in Hin.
  - intros Hrole Hne. unfold reply, Routes.patch_issues_assign,
      Routes.requireRole. rewrite Hrole.
    rewrite decide_True by repeat constructor. unfold MemStorage.bind.
    rewrite (getIssue_found _ _ _ _ H).
    by rewrite decide_True.
  - intros Hok. unfold reply.
    rewrite (patch_issues_assign_found _ _ _ _ _ _ H Hok). by cbn.
Qed.

(** X10 at work: the IT staff take the open issue 1, which becomes in
    progress. *)
Lemma X10_witness :
  ∃ updated,
    (Routes.patch_issues_assign (Sample.T0 + 1) (Some Sample.itstaff) 1 2
       Sample.store1).1 = Routes.json (Some updated)
    ∧ Issue.assigneeId updated = Some 2
    ∧ Issue.status updated = IssueStatus.IN_PROGRESS.
Proof.
  destruct (X10_patch_issues_assign (Sample.T0 + 1) Sample.itstaff 1 2
              Sample.store1 Sample.issue1 store1_issue1)
    as (_ & _ & Hok & Ha & Hs & _).
  destruct Hok as (Hr & _); [right; split; reflexivity|].
  eexists. split; [exact Hr|]. split; [exact Ha|]. rewrite Hs.
  reflexivity.
Defined.

(** ** Commenting *)

(** X11: [addComment] by a stored user on a stored issue appends one
    comment at the end of the issue's comments, with the author's name
    as it is then, the text and the time; the issue keeps every other
    field but [updatedAt] and the cached SLA status; one [commented]
    activity is recorded.  With an unknown user nothing is added: the
    answer is undefined and the store is as the read of the issue left
    it. *)
Theorem X11_addComment (now : Z) (commentId : string) (issueId userId : Z)
  (text : string) (s : MemStorage.t) (issue : Issue.t) :
  MemStorage.issuesMap s !! issueId = Some issue →
  let run := MemStorage.addComment now commentId issueId userId text s in
  (∀ user, MemStorage.usersMap s !! userId = Some user →
     let comment :=
       Comment.mk commentId userId (User.fullName user) text now in
     let updated := commented now comment issue in
     run.1 = Some updated
     ∧ Issue.comments updated = (Issue.comments issue ++ [comment])%list
     ∧ Issue.status updated = Issue.status issue
     ∧ Issue.department updated = Issue.department issue
     ∧ Issue.assigneeId updated = Issue.assigneeId issue
     ∧ Issue.isEscalated updated = Issue.isEscalated issue
     ∧ issue_kept issue updated
     ∧ MemStorage.issuesMap run.2
       = <[issueId := updated]> (MemStorage.issuesMap s)
     ∧ MemStorage.activitiesMap run.2
       = <[MemStorage.activityIdCounter s :=
             Activity.mk (MemStorage.activityIdCounter s) issueId userId
               "commented" (DetailsComment commentId) now]>
           (MemStorage.activitiesMap s))
  ∧ (MemStorage.usersMap s !! userId = None →
     run = (None, refreshed now issueId issue s)).
Proof.
  intros H run. unfold run, MemStorage.addComment, MemStorage.bind.
  rewrite (getIssue_found _ _ _ _ H). unfold MemStorage.getUser.
  change (MemStorage.usersMap (refreshed now issueId issue s))
    with (MemStorage.usersMap s).
  split.
  - intros user Hu. cbv zeta. rewrite Hu. cbn.
    rewrite insert_insert_eq. kept. by apply prefix_app_r.
  - intros Hu. by rewrite Hu.
Qed.

(** X11 at work: the employee comments on issue 1. *)
Lemma X11_witness :
  Issue.comments
  <$> (MemStorage.addComment (Sample.T0 + 1) "c1" 1 3 "Any news?"
         Sample.store1).1
  = Some [Comment.mk "c1" 3 "Regular Employee" "Any news?" (Sample.T0 + 1)].
Proof.
  destruct (X11_addComment (Sample.T0 + 1) "c1" 1 3 "Any news?"
              Sample.store1 Sample.issue1 store1_issue1) as [Hadd _].
  destruct (Hadd Sample.employee) as (Hr & Hc & _);
    [vm_compute; reflexivity|].
  rewrite Hr. cbn [fmap option_fmap option_map]. rewrite Hc. reflexivity.
Defined.

(** ** Lists of issues *)

Lemma query_run {B : Type} (now : Z) (f : list Issue.t → B)
  (s : MemStorage.t) :
  MemStorage.bind (MemStorage.getAllIssues now)
    (λ issues, MemStorage.ret (f issues)) s
  = (f (MemStorage.getAllIssues now s).1, (MemStorage.getAllIssues now s).2).
Proof. by rewrite bind_run. Qed.

Lemma getAllIssues_elem (now : Z) (s : MemStorage.t) (x : Issue.t) :
  keyed s →
  x ∈ (MemStorage.getAllIssues now s).1
  ↔ ∃ k issue,
      MemStorage.issuesMap s !! k = Some issue ∧ x = recalculated now issue.
Proof.
  intros Hs. destruct (getAllIssues_spec now s Hs) as (_ & -> & _).
  rewrite list_elem_of_fmap. split.
  - intros (issue & -> & Hin). apply elem_of_issueValues in Hin as [k Hk].
    by exists k, issue.
  - intros (k & issue & Hk & ->). exists issue. split; [done|].
    apply elem_of_issueValues. by exists k.
Qed.

Lemma Department_value_inj : Inj (=) (=) Department.value.
Proof. intros a b H. by destruct a, b. Qed.

(** X12: [GET /api/issues/me] lists, with the SLA status recalculated:
    for an employee exactly the stored issues they reported; for staff
    exactly the stored issues of their department; for an admin exactly
    the stored issues that are escalated, breached or at risk, and no
    other. *)
Theorem X12_get_issues_me (now : Z) (user : User.t) (s : MemStorage.t) :
  keyed s →
  ∃ issues,
    (Routes.get_issues_me now (Some user) s).1 = Routes.Sent issues
    ∧ ∀ x, x ∈ issues
           ↔ ∃ k issue,
               MemStorage.issuesMap s !! k = Some issue
               ∧ listed_for now user issue
               ∧ x = recalculated now issue.
Proof.
  intros Hs. unfold Routes.get_issues_me, listed_for.
  destruct (User.role user);
    unfold MemStorage.getIssuesByReporter, MemStorage.getIssuesByDepartment;
    rewrite !bind_run; cbn [fst snd MemStorage.ret];
    (eexists; split; [reflexivity|]);
    intros x; rewrite list_elem_of_filter, (getAllIssues_elem _ _ _ Hs);
    split.
  - intros (Hp & k & issue & Hk & ->). by exists k, issue.
  - intros (k & issue & Hk & Hp & ->). split; [done|]. by exists k, issue.
  - intros (Hp & k & issue & Hk & ->). exists k, issue.
    split; [done|]. split; [|done]. by apply Department_value_inj in Hp.
  - intros (k & issue & Hk & Hp & ->). split; [|by exists k, issue].
    cbn. by rewrite Hp.
  - intros (Hp & k & issue & Hk & ->). by exists k, issue.
  - intros (k & issue & Hk & Hp & ->). split; [done|]. by exists k, issue.
Qed.

Lemma keyed_store1 : keyed Sample.store1.
Proof. apply consistent_keyed, consistent_store1. Qed.

(** X12 at work: two hours after the report the employee's list shows
    issue 1. *)
Lemma X12_witness :
  ∃ issues,
    (Routes.get_issues_me (Sample.T0 + 2 * Date.msPerHour)
       (Some Sample.employee) Sample.store1).1 = Routes.Sent issues
    ∧ recalculated (Sample.T0 + 2 * Date.msPerHour) Sample.issue1 ∈ issues.
Proof.
  destruct (X12_get_issues_me (Sample.T0 + 2 * Date.msPerHour)
              Sample.employee Sample.store1 keyed_store1)
    as (issues & Hr & Hin).
  exists issues. split; [exact Hr|]. apply Hin.
  exists 1, Sample.issue1. split; [exact store1_issue1|]. by split.
Defined.

(** X13: [GET /api/issues/department/:department] does not look at the
    caller's department: staff of any department and admins get exactly
    the stored issues of the department they name, with the SLA status
    recalculated; an employee is refused and the store is untouched. *)
Theorem X13_get_issues_department (now : Z) (user : User.t)
  (department : string) (s : MemStorage.t) :
  keyed s →
  let reply := Routes.get_issues_department now (Some user) department s in
  (User.role user = UserRole.EMPLOYEE →
   reply = (Routes.Refused 403 "Insufficient permissions", s))
  ∧ (User.role user ≠ UserRole.EMPLOYEE →
     ∃ issues,
       reply.1 = Routes.Sent issues
       ∧ ∀ x, x ∈ issues
              ↔ ∃ k issue,
                  MemStorage.issuesMap s !! k = Some issue
                  ∧ Department.value (Issue.department issue) = department
                  ∧ x = recalculated now issue).
Proof.
  intros Hs reply. unfold reply, Routes.get_issues_department,
    Routes.requireRoleFor. split.
  - intros ->. rewrite decide_False; [done|].
    intros Hin. repeat (apply elem_of_cons in Hin as [Hin|Hin];
                        [discriminate|]).
    by apply elem_of_nil in Hin.
  - intros Hrole.
    rewrite decide_True
      by (destruct (User.role user); [done|repeat constructor..]).
    unfold MemStorage.getIssuesByDepartment.
    rewrite !bind_run. cbn [fst snd MemStorage.ret].
    eexists. split; [reflexivity|].
    intros x. rewrite list_elem_of_filter, (getAllIssues_elem _ _ _ Hs).
    split.
    + intros (Hp & k & issue & Hk & ->). by exists k, issue.
    + intros (k & issue & Hk & Hp & ->). split; [done|]. by exists k, issue.
Qed.

(** X13 at work: staff of the HR department list the issues of IT and
    get issue 1. *)
Lemma X13_witness :
  ∃ issues,
    (Routes.get_issues_department (Sample.T0 + 1) (Some Sample.hrstaff) "IT"
       Sample.store1).1 = Routes.Sent issues
    ∧ recalculated (Sample.T0 + 1) Sample.issue1 ∈ issues.
Proof.
  destruct (X13_get_issues_department (Sample.T0 + 1) Sample.hrstaff "IT"
              Sample.store1 keyed_store1) as [_ Hok].
  destruct Hok as (issues & Hr & Hin); [discriminate|].
  exists issues. split; [exact Hr|]. apply Hin.
  exists 1, Sample.issue1. split; [exact store1_issue1|]. by split.
Defined.

(** ** The analytics *)

(** X14: on a store whose keys are the issues' ids, the entry that
    [getIssueCountsByStatus] gives for each status other than pending
    is the number of stored issues with that status; for pending there
    is no entry when there is no pending issue and NaN when there is. *)
Theorem X14_status_counts (now : Z) (s : MemStorage.t) :
  keyed s →
  let counts := (MemStorage.getIssueCountsByStatus now s).1 in
  (∀ status, status ≠ IssueStatus.PENDING →
     counts !! IssueStatus.value status
     = Some (Number.ofZ (statusCount s status)))
  ∧ counts !! IssueStatus.value IssueStatus.PENDING
    = if decide (statusCount s IssueStatus.PENDING = 0) then None
      else Some Number.NaN.
Proof. apply getIssueCountsByStatus_spec. Qed.

(** X14 at work: one open issue is counted in the store of issue 1. *)
Lemma X14_witness :
  (MemStorage.getIssueCountsByStatus Sample.T0 Sample.store1).1
  !! IssueStatus.value IssueStatus.OPEN
  = Some (Number.ofZ 1).
Proof.
  destruct (X14_status_counts Sample.T0 Sample.store1 keyed_store1)
    as [Hc _].
  rewrite (Hc IssueStatus.OPEN) by discriminate.
  vm_compute. reflexivity.
Defined.

Lemma issueValues_getAllIssues (now : Z) (s : MemStorage.t) :
  keyed s →
  MemStorage.issueValues (MemStorage.getAllIssues now s).2
  = recalculated now <$> MemStorage.issueValues s.
Proof.
  intros Hs. destruct (getAllIssues_spec now s Hs) as (_ & H & _). exact H.
Qed.

Lemma keyed_getAllIssues (now : Z) (s : MemStorage.t) :
  keyed s → keyed (MemStorage.getAllIssues now s).2.
Proof.
  intros Hs k issue.
  destruct (getAllIssues_spec now s Hs) as (-> & _).
  rewrite lookup_fmap. intros H.
  destruct (MemStorage.issuesMap s !! k) as [i|] eqn:Hk; [|done].
  injection H as <-. exact (Hs _ _ Hk).
Qed.

Lemma statusCount_getAllIssues (now : Z) (s : MemStorage.t)
  (status : IssueStatus.t) :
  keyed s →
  statusCount (MemStorage.getAllIssues now s).2 status = statusCount s status.
Proof.
  intros Hs. unfold statusCount.
  by rewrite issueValues_getAllIssues, statusCount_recalculated.
Qed.

Lemma escalated_recalculated (now : Z) (l : list Issue.t) :
  length (filter (λ issue, Issue.isEscalated issue = true)
            (recalculated now <$> l))
  = length (filter (λ issue, Issue.isEscalated issue = true) l).
Proof.
  induction l as [|a l IH]; [done|]. cbn [fmap list_fmap].
  destruct (decide (Issue.isEscalated a = true)) as [Heq|Hne].
  - rewrite !filter_cons_True by done. cbn. by rewrite IH.
  - by rewrite !filter_cons_False.
Qed.

Lemma escalatedTotal_getAllIssues (now : Z) (s : MemStorage.t) :
  keyed s →
  escalatedTotal (MemStorage.getAllIssues now s).2 = escalatedTotal s.
Proof.
  intros Hs. unfold escalatedTotal.
  by rewrite issueValues_getAllIssues, escalated_recalculated.
Qed.

Lemma getEscalatedIssuesCount_spec (now : Z) (s : MemStorage.t) :
  keyed s →
  (MemStorage.getEscalatedIssuesCount now s).1 = escalatedTotal s.
Proof.
  intros Hs. unfold MemStorage.getEscalatedIssuesCount.
  rewrite bind_run. cbn [fst MemStorage.ret].
  change (MemStorage.getAllIssues now s).1
    with (MemStorage.issueValues (MemStorage.getAllIssues now s).2).
  by rewrite issueValues_getAllIssues, escalated_recalculated.
Qed.

(** A verified or closed issue is never breached once recalculated. *)
Lemma recalculated_terminal_not_breached (now : Z) (issue : Issue.t) :
  terminal (Issue.status issue) →
  Issue.slaStatus (recalculated now issue) ≠ SLAStatus.BREACHED.
Proof.
  intros Ht. cbn. destruct (Issue.dueBy issue) as [dueBy|] eqn:Hd.
  - by rewrite (calculateSlaStatus_terminal _ _ _ Hd Ht).
  - by rewrite calculateSlaStatus_no_dueBy.
Qed.

Lemma departmentZero_lookup (key : string) (data : Z * Z) :
  MemStorage.departmentZero !! key = Some data → data = (0, 0).
Proof.
  unfold MemStorage.departmentZero. intros H.
  repeat (apply lookup_insert_Some in H as [[_ <-]|[_ H]]; [done|]).
  by rewrite lookup_empty in H.
Qed.

Lemma departmentZero_member (department : Department.t) :
  MemStorage.departmentZero !! Department.value department = Some (0, 0).
Proof. by destruct department. Qed.

(** The loop over resolved issues none of which is breached: it does
    not throw, and each department's two counters stay equal. *)
Lemma countResolved_foldl (l : list Issue.t) :
  (∀ x, x ∈ l → Issue.slaStatus x ≠ SLAStatus.BREACHED) →
  ∀ m : gmap string (Z * Z),
    (∀ key,
       match MemStorage.departmentZero !! key with
       | None => m !! key = None
       | Some _ => ∃ t, 0 <= t ∧ m !! key = Some (t, t)
       end) →
    ∃ m',
      foldl MemStorage.countResolved (Some m) l = Some m'
      ∧ ∀ key,
          match MemStorage.departmentZero !! key with
          | None => m' !! key = None
          | Some _ => ∃ t, 0 <= t ∧ m' !! key = Some (t, t)
          end.
Proof.
  induction l as [|a l IH]; intros Hl m Hm; [by exists m|].
  cbn [foldl]. unfold MemStorage.countResolved at 2.
  pose proof (Hm (Department.value (Issue.department a))) as Ha.
  rewrite departmentZero_member in Ha. destruct Ha as (t & Ht & ->).
  rewrite decide_True by (apply Hl; by left).
  apply IH; [intros x Hx; apply Hl; by right|].
  intros key.
  destruct (decide (Department.value (Issue.department a) = key))
    as [<-|Hne].
  - rewrite departmentZero_member, lookup_insert_eq.
    exists (t + 1). split; [lia|done].
  - rewrite lookup_insert_ne by done. apply Hm.
Qed.

Lemma percentCompleted_full (t : Z) :
  0 <= t → MemStorage.percentCompleted (t, t) = Number.ofZ 100.
Proof.
  intros Ht. unfold MemStorage.percentCompleted.
  case_decide as Hpos; [|done].
  destruct t as [|p|p]; try lia.
  unfold Number.ofZ, Number.div, Number.sign. cbn [inject_Z Qnum Z.sgn].
  rewrite decide_False by done. cbn [Number.mul Number.round].
  do 2 f_equal.
  unfold Qfloor, Qplus, Qmult, Qdiv, Qinv. cbn.
  rewrite ?Pos.mul_1_r.
  symmetry. apply (Z.div_unique_pos _ _ 100 (Z.pos p)); lia.
Qed.

Lemma allHundred_lookup (key : string) :
  allHundred !! key
  = (λ _, Number.ofZ 100) <$> MemStorage.departmentZero !! key.
Proof. apply lookup_fmap. Qed.

Lemma getSLAPerformanceByDepartment_spec (now : Z) (s : MemStorage.t) :
  keyed s →
  (MemStorage.getSLAPerformanceByDepartment now s).1 = Some allHundred.
Proof.
  intros Hs. unfold MemStorage.getSLAPerformanceByDepartment.
  rewrite bind_run. cbn [fst MemStorage.ret].
  destruct (countResolved_foldl
              (filter (λ issue, Issue.status issue = IssueStatus.VERIFIED
                                ∨ Issue.status issue = IssueStatus.CLOSED)
                 (MemStorage.getAllIssues now s).1))
    with (m := MemStorage.departmentZero) as (m' & -> & Hm').
  - intros x Hx. apply list_elem_of_filter in Hx as [Ht Hx].
    apply (getAllIssues_elem _ _ _ Hs) in Hx as (k & issue & _ & ->).
    by apply recalculated_terminal_not_breached.
  - intros key.
    destruct (MemStorage.departmentZero !! key) as [data|] eqn:Hk; [|done].
    apply departmentZero_lookup in Hk as ->. by exists 0.
  - cbn. f_equal. apply map_eq. intros key.
    rewrite lookup_fmap, allHundred_lookup. specialize (Hm' key).
    destruct (MemStorage.departmentZero !! key) as [data|].
    + destruct Hm' as (t & Ht & ->). cbn -[MemStorage.percentCompleted].
      by rewrite percentCompleted_full.
    + by rewrite Hm'.
Qed.



Lemma add_ofZ (a b : Z) :
  Number.add (Number.ofZ a) (Number.ofZ b) = Number.ofZ (a + b).
Proof.
  unfold Number.ofZ, inject_Z. cbn [Number.add]. unfold Qplus.
  cbn [Qnum Qden]. do 2 f_equal. lia.
Qed.


